(** * dbmanager: resolve-or-create test fixtures

    A shallow embedding of the three variants of the Go package
    (manager.go holds two of them, the third one exports [Create] and
    [SetFieldValue]).

    - Go maps are references: a [RelationValues] is a pointer into a heap
      of map objects, so that copying and sharing are visible.
    - [testing.T.Fatalf] ends the calling goroutine: it is an abort of the
      computation, as is a run-time panic.
    - The database handle, the transaction and the squirrel builders are
      collaborators: a [Driver] gives the outcome of each call, and every
      call is recorded in a trace. *)

From stdpp Require Import gmap strings list fin_maps.

Open Scope string_scope.
Open Scope list_scope.

(** ** Field values *)

(** The dynamic values stored in a [map[string]interface{}]: a literal, or a
    value whose dynamic type implements [sq.Sqlizer] (what [sq.Expr] builds). *)
Inductive scalar :=
  | SNull
  | SString (s : string)
  | SInt (z : Z)
  | SBool (b : bool).

Record sqlexpr := Expr { expr_sql : string; expr_args : list scalar }.

Inductive Value :=
  | VScalar (s : scalar)
  | VSqlizer (e : sqlexpr).

#[global] Instance scalar_eq_dec : EqDecision scalar.
Proof. solve_decision. Defined.
#[global] Instance sqlexpr_eq_dec : EqDecision sqlexpr.
Proof. solve_decision. Defined.
#[global] Instance Value_eq_dec : EqDecision Value.
Proof. solve_decision. Defined.

(** The type assertion [_, ok := v.(sq.Sqlizer)]. *)
Definition is_Sqlizer (v : Value) : bool :=
  match v with
  | VSqlizer _ => true
  | VScalar _ => false
  end.

(** ** The heap of map objects *)

Definition loc := positive.

(** [type RelationValues map[string]interface{}]: nil, or a reference. *)
Inductive RelationValues :=
  | nilmap
  | mapref (l : loc).

#[global] Instance RelationValues_eq_dec : EqDecision RelationValues.
Proof. solve_decision. Defined.

Abbreviation fields := (gmap string Value).
Abbreviation heap := (gmap loc (gmap string Value)).

(** Reading a map: a nil map reads as the empty map. *)
Definition deref (h : heap) (r : RelationValues) : fields :=
  match r with
  | nilmap => ∅
  | mapref l => default ∅ (h !! l)
  end.

(** [make(map[string]interface{})]: the address of the new object. *)
Definition new_loc (h : heap) : loc := fresh (dom h).

(** [values[k] = v] on the map object at [l]. *)
Definition store (l : loc) (k : string) (v : Value) (h : heap) : heap :=
  <[l := <[k := v]> (default ∅ (h !! l))]> h.

(** ** Errors, statements and the collaborators *)

Inductive error :=
  | ErrNoRows
  | ErrOther (msg : string).

#[global] Instance error_eq_dec : EqDecision error.
Proof. solve_decision. Defined.

(** [err.Error()], what the verbs %s and %+v print. *)
Definition Error (e : error) : string :=
  match e with
  | ErrNoRows => "sql: no rows in result set"
  | ErrOther msg => msg
  end.

(** What a squirrel builder holds when it is rendered or run. *)
Inductive Stmt :=
  | Select (columns : list string) (from : string) (where_eq : fields)
           (limit : nat)
  | Insert (into : string) (set_map : fields) (suffixes : list string).

(** The builder calls [SetMap(sq.Eq(values))] and [Suffix(sql)]. *)
Definition SetMap (clauses : fields) (b : Stmt) : Stmt :=
  match b with
  | Insert into _ suffixes => Insert into clauses suffixes
  | Select _ _ _ _ => b
  end.

Definition Suffix (sql : string) (b : Stmt) : Stmt :=
  match b with
  | Insert into set_map suffixes => Insert into set_map (suffixes ++ [sql])
  | Select _ _ _ _ => b
  end.

(** The calls made on the database handle and on the transaction. *)
Inductive event :=
  | EvBegin
  | EvQueryRow (s : Stmt)
  | EvTxQuery (s : Stmt)
  | EvCommit
  | EvRollback
  | EvQuery (s : Stmt).

(** The outcome of every call on a collaborator, for a database state [DB].
    [None] is Go's nil error. [to_sql] is [builder.ToSql()], [db_query] is
    [Query()] on a builder made with [RunWith(db)]. *)
Record Driver (DB : Type) := {
  to_sql : Stmt → option error;
  db_begin : DB → option error * DB;
  tx_query_row_scan : Stmt → DB → option error * DB;
  tx_query : Stmt → DB → option error * DB;
  tx_commit : DB → option error * DB;
  tx_rollback : DB → option error * DB;
  db_query : Stmt → DB → option error * DB
}.
Arguments to_sql {DB} _ _.
Arguments db_begin {DB} _ _.
Arguments tx_query_row_scan {DB} _ _ _.
Arguments tx_query {DB} _ _ _.
Arguments tx_commit {DB} _ _.
Arguments tx_rollback {DB} _ _.
Arguments db_query {DB} _ _ _.

(** ** The computation monad *)

Record world (DB : Type) := World {
  w_heap : heap;
  w_db : DB;
  w_trace : list event
}.
Arguments World {DB} _ _ _.
Arguments w_heap {DB} _.
Arguments w_db {DB} _.
Arguments w_trace {DB} _.

Inductive abort :=
  | Fatal (msg : string)
  | Panic (msg : string).

Inductive result (DB A : Type) :=
  | Ok (a : A) (w : world DB)
  | Abort (e : abort) (w : world DB).
Arguments Ok {DB A} _ _.
Arguments Abort {DB A} _ _.

Definition M (DB A : Type) : Type := world DB → result DB A.

#[global] Instance M_ret {DB} : MRet (M DB) := λ A a w, Ok a w.

#[global] Instance M_bind {DB} : MBind (M DB) := λ A B f m w,
  match m w with
  | Ok a w' => f a w'
  | Abort e w' => Abort e w'
  end.

(** [t.Fatalf(...)] *)
Definition Fatalf {DB A} (msg : string) : M DB A := λ w, Abort (Fatal msg) w.

Definition panic {DB A} (msg : string) : M DB A := λ w, Abort (Panic msg) w.

Definition world_of {DB A} (r : result DB A) : world DB :=
  match r with
  | Ok _ w => w
  | Abort _ w => w
  end.

Definition get_heap {DB} : M DB heap := λ w, Ok (w_heap w) w.

Definition modify_heap {DB} (f : heap → heap) : M DB unit :=
  λ w, Ok tt (World (f (w_heap w)) (w_db w) (w_trace w)).

(** A call on a collaborator: the driver's outcome, and the event is logged. *)
Definition call {DB} (ev : event) (op : DB → option error * DB)
  : M DB (option error) :=
  λ w, let '(err, db') := op (w_db w) in
       Ok err (World (w_heap w) db' (w_trace w ++ [ev])).

(** [type RelationValuesOption func(RelationValues)] *)
Definition RelationValuesOption (DB : Type) : Type :=
  RelationValues → M DB unit.

(** [values[f] = v], which panics on a nil map. *)
Definition mapassign {DB} (r : RelationValues) (k : string) (v : Value)
  : M DB unit :=
  match r with
  | nilmap => panic "assignment to entry in nil map"
  | mapref l => modify_heap (store l k v)
  end.

(** [SetFieldValue] of the third variant. *)
Definition SetFieldValue {DB} (f : string) (v : Value)
  : RelationValuesOption DB :=
  λ values, mapassign values f v.

(** [make(RelationValues)] *)
Definition make_map {DB} : M DB loc :=
  λ w, let l := new_loc (w_heap w) in
       Ok l (World (<[l := ∅]> (w_heap w)) (w_db w) (w_trace w)).

(** [for k, v := range src { body }] over the heap. *)
Definition range_map {DB} (src : fields) (body : string → Value → heap → heap)
  : M DB unit :=
  modify_heap (λ h, map_fold body h src).

(** ** The manager *)

Record dbManager (DB : Type) := {
  db : Driver DB;
  defaultRelationValues : gmap string RelationValues
}.
Arguments db {DB} _.
Arguments defaultRelationValues {DB} _.

Section manager.
Context {DB : Type} (dbMan : dbManager DB).

(** [getDefaultRelationValues], the same in the three variants. *)
Definition getDefaultRelationValues (relationName : string)
  : M DB RelationValues :=
  match defaultRelationValues dbMan !! relationName with
  | None =>
      Fatalf ("no default values for relation '" +:+ relationName +:+ "'")
  | Some defaultValue =>
      values ← make_map ;
      h ← get_heap ;
      range_map (deref h defaultValue) (λ k v, store values k v) ;;
      mret (mapref values)
  end.

(** [for _, opt := range opts { opt(defaultVal) }] *)
Fixpoint apply_opts (opts : list (RelationValuesOption DB))
  (defaultVal : RelationValues) : M DB unit :=
  match opts with
  | [] => mret tt
  | opt :: opts' => opt defaultVal ;; apply_opts opts' defaultVal
  end.

(** [relationValues], the same in the three variants. *)
Definition relationValues (relationName : string)
  (opts : list (RelationValuesOption DB)) : M DB RelationValues :=
  defaultVal ← getDefaultRelationValues relationName ;
  apply_opts opts defaultVal ;;
  mret defaultVal.

(** [parseSelectValues] *)
Definition parseSelectValues (originalValues : RelationValues)
  : M DB RelationValues :=
  values ← make_map ;
  h ← get_heap ;
  range_map (deref h originalValues)
    (λ k v, if is_Sqlizer v then id else store values k v) ;;
  mret (mapref values).

(** [selectBuilder(tableName).Where(selectValues).Limit(1)] *)
Definition selectBuilder (tableName : string) (selectValues : fields)
  : Stmt :=
  Select [EmptyString] tableName selectValues 1.

(** [checkIfExisting] *)
Definition checkIfExisting (tableName : string) (values : RelationValues)
  : M DB (option error) :=
  selectValues ← parseSelectValues values ;
  h ← get_heap ;
  let builder := selectBuilder tableName (deref h selectValues) in
  match to_sql (db dbMan) builder with
  | Some err => mret (Some err)
  | None =>
      call (EvQueryRow builder) (tx_query_row_scan (db dbMan) builder)
  end.

Definition rollback : M DB unit :=
  err ← call EvRollback (tx_rollback (db dbMan)) ;
  match err with
  | Some err =>
      Fatalf ("Test setup failed: failed to rollback: " +:+ Error err)
  | None => mret tt
  end.

Definition commit : M DB unit :=
  commitErr ← call EvCommit (tx_commit (db dbMan)) ;
  match commitErr with
  | Some commitErr =>
      Fatalf ("Test setup failed: could not commit transaction: "
              +:+ Error commitErr)
  | None => mret tt
  end.

End manager.

(** ** The transactional variant (second file of manager.go) *)

Module Transactional.
Section transactional.
Context {DB : Type} (dbMan : dbManager DB).

Definition insertBuilder (tableName : string) : Stmt :=
  Insert tableName ∅ [].

(** [ResolveTestRecord(tableName, stringID, opts...)] *)
Definition ResolveTestRecord (tableName stringID : string)
  (opts : list (RelationValuesOption DB)) : M DB unit :=
  values ← relationValues dbMan tableName opts ;
  err ← call EvBegin (db_begin (db dbMan)) ;
  match err with
  | Some err =>
      Fatalf ("Test setup failed: could not start transaction: "
              +:+ Error err)
  | None =>
      err ← checkIfExisting dbMan tableName values ;
      match err with
      | Some ErrNoRows =>
          h ← get_heap ;
          let builder := SetMap (deref h values) (insertBuilder tableName) in
          match to_sql (db dbMan) builder with
          | Some err =>
              rollback dbMan ;;
              Fatalf ("Test setup failed: could not generate sql string for '"
                      +:+ tableName +:+ "': " +:+ Error err)
          | None =>
              err ← call (EvTxQuery builder) (tx_query (db dbMan) builder) ;
              match err with
              | Some err =>
                  rollback dbMan ;;
                  Fatalf ("Test setup failed: could not create test record for '"
                          +:+ tableName +:+ "': " +:+ Error err)
              | None => commit dbMan
              end
          end
      | Some err =>
          rollback dbMan ;;
          Fatalf ("failed during checkIfExisting " +:+ Error err)
      | None =>
          commit dbMan
      end
  end.

End transactional.
End Transactional.

(** ** The simplified variant (first file of manager.go, and the third file) *)

Module Simple.
Section simple.
Context {DB : Type} (dbMan : dbManager DB).

Definition insertBuilder (tableName : string) : Stmt :=
  Insert tableName ∅ [].

(** [Create(tableName, opts...)] of the third file. *)
Definition Create (tableName : string)
  (opts : list (RelationValuesOption DB)) : M DB unit :=
  values ← relationValues dbMan tableName opts ;
  h ← get_heap ;
  let builder :=
    Suffix "ON CONFLICT DO NOTHING"
      (SetMap (deref h values) (insertBuilder tableName)) in
  err ← call (EvQuery builder) (db_query (db dbMan) builder) ;
  match err with
  | Some err =>
      Fatalf ("Test setup failed: could not create test record for '"
              +:+ tableName +:+ "': " +:+ Error err)
  | None => mret tt
  end.

(** [ResolveTestRecord(tableName, opts...)] of the first file of manager.go,
    which has the body of [Create]. *)
Definition ResolveTestRecord (tableName : string)
  (opts : list (RelationValuesOption DB)) : M DB unit :=
  values ← relationValues dbMan tableName opts ;
  h ← get_heap ;
  let builder :=
    Suffix "ON CONFLICT DO NOTHING"
      (SetMap (deref h values) (insertBuilder tableName)) in
  err ← call (EvQuery builder) (db_query (db dbMan) builder) ;
  match err with
  | Some err =>
      Fatalf ("Test setup failed: could not create test record for '"
              +:+ tableName +:+ "': " +:+ Error err)
  | None => mret tt
  end.

End simple.
End Simple.

(** ** A reference database

    An in-memory model of the database collaborator, used to run the
    manager: a table is a list of rows, a transaction works on a snapshot
    that [Commit] installs and [Rollback] drops, and the equality filter of
    a select is the conjunction of its conditions. No uniqueness constraint
    is modelled. *)

Abbreviation row := (gmap string scalar).
Abbreviation tables := (gmap string (list row)).

Record memdb := MemDB {
  committed : tables;
  pending : option tables
}.

Module MemDB.
Section memdb.
(** The value a SQL expression takes when the row is written. *)
Variable eval : sqlexpr → scalar.

Definition cell (v : Value) : scalar :=
  match v with
  | VScalar s => s
  | VSqlizer e => eval e
  end.

Definition cond_holds (r : row) (k : string) (v : Value) : bool :=
  match v with
  | VScalar s => bool_decide (r !! k = Some s)
  | VSqlizer _ => false
  end.

Definition matches (where_eq : fields) (r : row) : bool :=
  bool_decide (map_Forall (λ k v, cond_holds r k v = true) where_eq).

Definition no_table (name : string) : error :=
  ErrOther ("relation '" +:+ name +:+ "' does not exist").
Definition tx_done : error :=
  ErrOther "sql: transaction has already been committed or rolled back".

(** The error of scanning the first row of a select, if any. *)
Definition scan (t : tables) (s : Stmt) : option error :=
  match s with
  | Select _ from where_eq limit =>
      match t !! from with
      | None => Some (no_table from)
      | Some rows =>
          match take limit (filter (λ r, matches where_eq r = true) rows) with
          | [] => Some ErrNoRows
          | _ :: _ => None
          end
      end
  | Insert _ _ _ => Some (ErrOther "not a select")
  end.

Definition exec (t : tables) (s : Stmt) : option error * tables :=
  match s with
  | Insert into set_map _ =>
      match t !! into with
      | None => (Some (no_table into), t)
      | Some rows => (None, <[into := rows ++ [cell <$> set_map]]> t)
      end
  | Select _ _ _ _ =>
      match scan t s with
      | Some ErrNoRows | None => (None, t)
      | Some e => (Some e, t)
      end
  end.

Definition in_tx (f : tables → option error * tables) (d : memdb)
  : option error * memdb :=
  match pending d with
  | None => (Some tx_done, d)
  | Some t => let '(e, t') := f t in (e, MemDB (committed d) (Some t'))
  end.

Definition driver : Driver memdb := {|
  to_sql := λ _, None;
  db_begin := λ d, (None, MemDB (committed d) (Some (committed d)));
  tx_query_row_scan := λ s, in_tx (λ t, (scan t s, t));
  tx_query := λ s, in_tx (λ t, exec t s);
  tx_commit := λ d,
    match pending d with
    | None => (Some tx_done, d)
    | Some t => (None, MemDB t None)
    end;
  tx_rollback := λ d,
    match pending d with
    | None => (Some tx_done, d)
    | Some _ => (None, MemDB (committed d) None)
    end;
  db_query := λ s d,
    let '(e, t') := exec (committed d) s in (e, MemDB t' (pending d))
|}.

End memdb.
End MemDB.

(** ** The scenarios of the usage notes, run on the reference database *)

Module Scenario.

Definition now (e : sqlexpr) : scalar := SString "2024-01-01 00:00:00".

Definition users : loc := 1%positive.
Definition events : loc := 2%positive.

Definition defaults : gmap string RelationValues :=
  {[ "users" := mapref users; "events" := mapref events ]}.

Definition user_defaults : fields :=
  {[ "id" := VScalar (SString "u1"); "name" := VScalar (SString "Alice") ]}.

Definition u2 : Value := VScalar (SString "u2").
Definition u3 : Value := VScalar (SString "u3").
Definition bob : Value := VScalar (SString "Bob").

Definition current_timestamp : Value :=
  VSqlizer (Expr "CURRENT_TIMESTAMP" []).

Definition event_defaults : fields :=
  {[ "created_at" := current_timestamp; "updated_at" := current_timestamp ]}.

Definition heap0 : heap :=
  {[ users := user_defaults; events := event_defaults ]}.

Definition dbMan : dbManager memdb :=
  {| db := MemDB.driver now; defaultRelationValues := defaults |}.

Definition alice : row := {[ "id" := SString "u1"; "name" := SString "Alice" ]}.
Definition alice2 : row := {[ "id" := SString "u2"; "name" := SString "Alice" ]}.
Definition old_event : row :=
  {[ "created_at" := SString "1999-12-31 23:59:59";
     "updated_at" := SNull ]}.

(** Empty tables; one event stored. *)
Definition world0 : world memdb :=
  World heap0 (MemDB {[ "users" := []; "events" := [] ]} None) [].

Definition world_one_event : world memdb :=
  World heap0 (MemDB {[ "users" := []; "events" := [old_event] ]} None) [].

(** A connection that is lost when the check is run. *)
Definition bad_conn : error := ErrOther "driver: bad connection".

Definition lossy : Driver memdb := {|
  to_sql := to_sql (MemDB.driver now);
  db_begin := db_begin (MemDB.driver now);
  tx_query_row_scan := λ _ d, (Some bad_conn, d);
  tx_query := tx_query (MemDB.driver now);
  tx_commit := tx_commit (MemDB.driver now);
  tx_rollback := tx_rollback (MemDB.driver now);
  db_query := db_query (MemDB.driver now)
|}.

Definition dbMan_lossy : dbManager memdb :=
  {| db := lossy; defaultRelationValues := defaults |}.

(** A database that refuses to begin a transaction, and one that refuses
    to commit. *)
Definition no_begin : Driver memdb := {|
  to_sql := to_sql (MemDB.driver now);
  db_begin := λ d, (Some bad_conn, d);
  tx_query_row_scan := tx_query_row_scan (MemDB.driver now);
  tx_query := tx_query (MemDB.driver now);
  tx_commit := tx_commit (MemDB.driver now);
  tx_rollback := tx_rollback (MemDB.driver now);
  db_query := db_query (MemDB.driver now)
|}.

Definition no_commit : Driver memdb := {|
  to_sql := to_sql (MemDB.driver now);
  db_begin := db_begin (MemDB.driver now);
  tx_query_row_scan := tx_query_row_scan (MemDB.driver now);
  tx_query := tx_query (MemDB.driver now);
  tx_commit := λ d, (Some bad_conn, d);
  tx_rollback := tx_rollback (MemDB.driver now);
  db_query := db_query (MemDB.driver now)
|}.

Definition dbMan_no_begin : dbManager memdb :=
  {| db := no_begin; defaultRelationValues := defaults |}.

Definition dbMan_no_commit : dbManager memdb :=
  {| db := no_commit; defaultRelationValues := defaults |}.

End Scenario.

(** Whether a message has [part] in it. *)
Definition mentions (part msg : string) : bool :=
  match String.index 0 part msg with
  | Some _ => true
  | None => false
  end.

(** An abort of the test whose message has the relation name and the text of
    the error in it. *)
Definition reports_relation_and_error {DB} (r : result DB unit)
  (tableName : string) (err : error) : Prop :=
  ∃ msg w', r = Abort (Fatal msg) w'
            ∧ mentions tableName msg = true
            ∧ mentions (Error err) msg = true.

(** ** The vocabulary of the properties *)

(** A field that the existence check compares: its value is no [sq.Sqlizer]. *)
Definition non_expression (kv : string * Value) : Prop :=
  is_Sqlizer kv.2 = false.

#[global] Instance non_expression_dec kv : Decision (non_expression kv).
Proof. unfold non_expression. apply _. Defined.

(** The overrides that [SetFieldValue] builds from a list of assignments. *)
Definition overrides {DB} (sets : list (string * Value))
  : list (RelationValuesOption DB) :=
  (λ kv, SetFieldValue kv.1 kv.2) <$> sets.

(** The fields after the assignments are made in order. *)
Definition assign_all (d : fields) (sets : list (string * Value)) : fields :=
  foldl (λ m kv, <[kv.1 := kv.2]> m) d sets.

(** The world after a step that only changed the heap. *)
Definition with_heap {DB} (h : heap) (w : world DB) : world DB :=
  World h (w_db w) (w_trace w).

(** The world after a call on the transaction. *)
Definition after_call {DB} (ev : event) (d : DB) (w : world DB) : world DB :=
  World (w_heap w) d (w_trace w ++ [ev]).

(** The abort that follows [rollback]: the rollback's own failure when it
    has one, or else the message of the caller. *)
Definition fatal_after_rollback (rerr : option error) (msg : string) : abort :=
  match rerr with
  | Some err => Fatal ("Test setup failed: failed to rollback: " +:+ Error err)
  | None => Fatal msg
  end.

Section check.
Context {DB : Type} (dbMan : dbManager DB).

(** The statement that the check and the insert of one call work with. *)
Definition check_stmt (tableName : string) (vs : fields) : Stmt :=
  Select [EmptyString] tableName (filter non_expression vs) 1.

Definition insert_stmt (tableName : string) (vs : fields) : Stmt :=
  Insert tableName vs [].

(** What [checkIfExisting] returns: the error of building the select, or
    else the error of scanning its first row. *)
Definition check_outcome (tableName : string) (vs : fields) (d : DB)
  : option error * DB :=
  match to_sql (db dbMan) (check_stmt tableName vs) with
  | Some err => (Some err, d)
  | None => tx_query_row_scan (db dbMan) (check_stmt tableName vs) d
  end.

Definition check_events (tableName : string) (vs : fields) : list event :=
  match to_sql (db dbMan) (check_stmt tableName vs) with
  | Some _ => []
  | None => [EvQueryRow (check_stmt tableName vs)]
  end.

End check.

(** The modifier of the insert of the simplified variant. *)
Definition conflict_suffix : string := "ON CONFLICT DO NOTHING".

(** A computation that leaves the map object at [l] as it is. *)
Definition keeps {DB A} (l : loc) (m : M DB A) : Prop :=
  ∀ w, is_Some (w_heap w !! l) →
       w_heap (world_of (m w)) !! l = w_heap w !! l.

(** An override that writes to no map but the one it is given. *)
Definition writes_its_argument_only {DB} (opt : RelationValuesOption DB)
  : Prop :=
  ∀ values l, values ≠ mapref l → keeps l (opt values).

(** Go has no dangling reference: the maps of the default value table are
    objects of the heap. *)
Definition allocated (h : heap) (r : RelationValues) : Prop :=
  match r with
  | nilmap => True
  | mapref l => is_Some (h !! l)
  end.

#[global] Instance allocated_dec h r : Decision (allocated h r).
Proof. destruct r; simpl; apply _. Defined.

Definition defaults_allocated {DB} (dbMan : dbManager DB) (h : heap) : Prop :=
  map_Forall (λ _ r, allocated h r) (defaultRelationValues dbMan).

(** The kinds of calls, to count them in a trace. *)
Definition is_begin (e : event) : bool :=
  match e with EvBegin => true | _ => false end.

Definition is_commit (e : event) : bool :=
  match e with EvCommit => true | _ => false end.

Definition is_rollback (e : event) : bool :=
  match e with EvRollback => true | _ => false end.

Definition is_query_row (e : event) : bool :=
  match e with EvQueryRow _ => true | _ => false end.

Definition is_tx_query (e : event) : bool :=
  match e with EvTxQuery _ => true | _ => false end.

Definition is_query (e : event) : bool :=
  match e with EvQuery _ => true | _ => false end.

Definition calls (p : event → bool) (tr : list event) : nat :=
  length (List.filter p tr).

(** An outcome that is a run-time panic. *)
Definition is_panic {DB A} (r : result DB A) : bool :=
  match r with
  | Abort (Panic _) _ => true
  | _ => false
  end.

Section reference_rows.
Variable eval : sqlexpr → scalar.

(** The rows of the relation after a call: as they were when one passes
    the filter, with one more row when none does. *)
Definition rows_after (vs : fields) (rows : list row) : list row :=
  match List.filter (MemDB.matches (filter non_expression vs)) rows with
  | [] => rows ++ [MemDB.cell eval <$> vs]
  | _ :: _ => rows
  end.

Definition calls_made (tableName : string) (vs : fields) (rows : list row)
  : list event :=
  [EvBegin; EvQueryRow (check_stmt tableName vs)]
  ++ match List.filter (MemDB.matches (filter non_expression vs)) rows with
     | [] => [EvTxQuery (Insert tableName vs [])]
     | _ :: _ => []
     end
  ++ [EvCommit].

End reference_rows.

(** * Properties *)

(** ** The heap loops *)

Lemma store_lookup_eq l k v (h : heap) :
  store l k v h !! l = Some (<[k := v]> (default ∅ (h !! l))).
Proof. unfold store. by rewrite lookup_insert_eq. Qed.

Lemma store_lookup_ne l l' k v (h : heap) :
  l ≠ l' → store l k v h !! l' = h !! l'.
Proof. intros Hne. unfold store. by rewrite lookup_insert_ne. Qed.

Lemma store_insert l k v m (h : heap) :
  store l k v (<[l := m]> h) = <[l := <[k := v]> m]> h.
Proof.
  unfold store. rewrite lookup_insert_eq. simpl. apply insert_insert_eq.
Qed.

Lemma new_loc_fresh (h : heap) : h !! new_loc h = None.
Proof.
  apply not_elem_of_dom. unfold new_loc. apply is_fresh.
Qed.

Lemma new_loc_ne (h : heap) l : is_Some (h !! l) → l ≠ new_loc h.
Proof.
  intros [m Hm] ->. rewrite new_loc_fresh in Hm. discriminate.
Qed.

(** Reading through a reference is not affected by an allocation. *)
Lemma deref_alloc (h : heap) r :
  deref (<[new_loc h := ∅]> h) r = deref h r.
Proof.
  destruct r as [|l]; simpl; [done|].
  destruct (decide (l = new_loc h)) as [->|Hne].
  - by rewrite lookup_insert_eq, new_loc_fresh.
  - by rewrite lookup_insert_ne.
Qed.

(** The copy loop of [getDefaultRelationValues] fills the new map with the
    fields of the source. *)
Lemma copy_loop l (src : fields) (h : heap) :
  map_fold (λ k v, store l k v) (<[l := ∅]> h) src = <[l := src]> h.
Proof.
  apply (map_fold_weak_ind (λ r (m : fields), r = <[l := m]> h)).
  - done.
  - intros k v m r _ ->. apply store_insert.
Qed.

(** The loop of [parseSelectValues] keeps the fields that are no expression. *)
Lemma filter_loop l (src : fields) (h : heap) :
  map_fold (λ k v, if is_Sqlizer v then id else store l k v) (<[l := ∅]> h) src
  = <[l := filter non_expression src]> h.
Proof.
  apply (map_fold_weak_ind
           (λ r (m : fields), r = <[l := filter non_expression m]> h)).
  - by rewrite map_filter_empty.
  - intros k v m r Hk ->. destruct (is_Sqlizer v) eqn:Hv.
    + rewrite map_filter_insert_False by (unfold non_expression; simpl; congruence).
      by rewrite delete_id.
    + rewrite map_filter_insert_True by done. apply store_insert.
Qed.

(** Go leaves the order of a [range] over a map open: both loops give the
    same heap for every order in which the fields are visited. *)
Lemma store_comm l k1 v1 k2 v2 (h : heap) :
  k1 ≠ k2 → store l k1 v1 (store l k2 v2 h) = store l k2 v2 (store l k1 v1 h).
Proof.
  intros Hne. unfold store. rewrite !lookup_insert_eq. simpl.
  rewrite !insert_insert_eq. f_equal. by apply insert_insert_ne.
Qed.

Lemma range_order_irrelevant (body : string → Value → heap → heap)
    (src : fields) (h : heap) (visited : list (string * Value)) :
  (∀ k1 v1 k2 v2 h', k1 ≠ k2 →
     body k1 v1 (body k2 v2 h') = body k2 v2 (body k1 v1 h')) →
  visited ≡ₚ map_to_list src →
  foldr (uncurry body) h visited = map_fold body h src.
Proof.
  intros Hcomm Hperm. rewrite map_fold_foldr. symmetry.
  apply (foldr_permutation (=)); [solve_proper| |by symmetry].
  intros j1 [k1 v1] j2 [k2 v2] h' Hj H1 H2. simpl.
  apply Hcomm. intros ->.
  apply Hj. eapply NoDup_lookup; [apply (NoDup_fst_map_to_list src)| |].
  - rewrite list_lookup_fmap, H1. done.
  - rewrite list_lookup_fmap, H2. done.
Qed.

Lemma copy_loop_any_order l (src : fields) (h : heap) visited :
  visited ≡ₚ map_to_list src →
  foldr (uncurry (λ k v, store l k v)) (<[l := ∅]> h) visited = <[l := src]> h.
Proof.
  intros Hperm. rewrite <- (copy_loop l src h).
  apply range_order_irrelevant; [|done].
  intros. by apply store_comm.
Qed.

Lemma filter_loop_any_order l (src : fields) (h : heap) visited :
  visited ≡ₚ map_to_list src →
  foldr (uncurry (λ k v, if is_Sqlizer v then id else store l k v))
    (<[l := ∅]> h) visited
  = <[l := filter non_expression src]> h.
Proof.
  intros Hperm. rewrite <- (filter_loop l src h).
  apply range_order_irrelevant; [|done].
  intros k1 v1 k2 v2 h' Hne.
  destruct (is_Sqlizer v1), (is_Sqlizer v2); simpl; try done.
  by apply store_comm.
Qed.

(** ** Running the manager *)

Ltac unfold_monad :=
  unfold mbind, mret, M_bind, M_ret, Fatalf, panic, get_heap, modify_heap,
    make_map, range_map, call, with_heap in *.

Section run.
Context {DB : Type} (dbMan : dbManager DB).

Lemma getDefaultRelationValues_unknown relationName (w : world DB) :
  defaultRelationValues dbMan !! relationName = None →
  getDefaultRelationValues dbMan relationName w
  = Abort (Fatal ("no default values for relation '" +:+ relationName +:+ "'")) w.
Proof. intros H. unfold getDefaultRelationValues. by rewrite H. Qed.

Lemma getDefaultRelationValues_known relationName defaultValue (w : world DB) :
  defaultRelationValues dbMan !! relationName = Some defaultValue →
  getDefaultRelationValues dbMan relationName w
  = Ok (mapref (new_loc (w_heap w)))
       (with_heap (<[new_loc (w_heap w) := deref (w_heap w) defaultValue]>
                     (w_heap w)) w).
Proof.
  intros H. unfold getDefaultRelationValues. rewrite H.
  unfold_monad. simpl. by rewrite deref_alloc, copy_loop.
Qed.

Lemma apply_opts_app opts1 opts2 values (w : world DB) :
  apply_opts (opts1 ++ opts2) values w
  = (apply_opts opts1 values ;; apply_opts opts2 values) w.
Proof.
  revert w. induction opts1 as [|opt opts1 IH]; intros w; simpl.
  - done.
  - unfold_monad. destruct (opt values w) as [[] w'|e w']; [|done].
    apply IH.
Qed.

(** The overrides of [SetFieldValue] assign the fields of the map they are
    given, in order, and touch nothing else. *)
Lemma apply_opts_overrides sets l m (w : world DB) :
  w_heap w !! l = Some m →
  apply_opts (overrides sets) (mapref l) w
  = Ok tt (with_heap (<[l := assign_all m sets]> (w_heap w)) w).
Proof.
  revert m w. induction sets as [|[k v] sets IH]; intros m w Hl; simpl.
  - unfold_monad. rewrite insert_id by done. by destruct w.
  - unfold_monad. simpl.
    rewrite (IH (<[k := v]> m)); simpl.
    + unfold store. rewrite Hl. simpl. by rewrite insert_insert_eq.
    + unfold store. rewrite Hl. simpl. by rewrite lookup_insert_eq.
Qed.

(** [relationValues] on a known relation: the new map holds the defaults
    with the assignments made in order. *)
Lemma relationValues_overrides relationName defaultValue sets (w : world DB) :
  defaultRelationValues dbMan !! relationName = Some defaultValue →
  relationValues dbMan relationName (overrides sets) w
  = Ok (mapref (new_loc (w_heap w)))
       (with_heap (<[new_loc (w_heap w) :=
                      assign_all (deref (w_heap w) defaultValue) sets]>
                     (w_heap w)) w).
Proof.
  intros H. unfold relationValues.
  unfold mbind at 1, M_bind. rewrite (getDefaultRelationValues_known _ _ _ H).
  unfold mbind at 1, M_bind.
  rewrite (apply_opts_overrides _ _ (deref (w_heap w) defaultValue))
    by (simpl; apply lookup_insert_eq).
  unfold_monad. simpl. by rewrite insert_insert_eq.
Qed.

Lemma relationValues_unknown relationName opts (w : world DB) :
  defaultRelationValues dbMan !! relationName = None →
  relationValues dbMan relationName opts w
  = Abort (Fatal ("no default values for relation '" +:+ relationName +:+ "'")) w.
Proof.
  intros H. unfold relationValues. unfold mbind, M_bind.
  by rewrite (getDefaultRelationValues_unknown _ _ H).
Qed.

(** The options run in call order: one more option runs after the others,
    whatever they are. *)
Lemma relationValues_snoc relationName opts opt (w : world DB) :
  relationValues dbMan relationName (opts ++ [opt]) w
  = (values ← relationValues dbMan relationName opts ;
     opt values ;; mret values) w.
Proof.
  unfold relationValues. unfold mbind, M_bind.
  destruct (getDefaultRelationValues dbMan relationName w) as [d w1|e w1];
    [|done].
  rewrite apply_opts_app. unfold mbind, M_bind.
  destruct (apply_opts opts d w1) as [[] w2|e w2]; [|done]. simpl.
  unfold mbind, M_bind, mret, M_ret.
  by destruct (opt d w2) as [[] w3|e w3].
Qed.

(** X10. A last [SetFieldValue] wins over every option before it, whatever
    the earlier options are: in the resolved value set its field has its
    value. *)
Lemma SetFieldValue_last_wins relationName opts f v (w : world DB) values w' :
  relationValues dbMan relationName (opts ++ [SetFieldValue f v]) w
  = Ok values w' →
  deref (w_heap w') values !! f = Some v.
Proof.
  rewrite relationValues_snoc. unfold mbind, M_bind.
  destruct (relationValues dbMan relationName opts w) as [r w1|e w1];
    [|discriminate].
  destruct r as [|l]; simpl; [discriminate|].
  unfold_monad. intros [= <- <-]. simpl.
  rewrite store_lookup_eq. simpl. apply lookup_insert_eq.
Qed.

Lemma parseSelectValues_run values (w : world DB) :
  parseSelectValues values w
  = Ok (mapref (new_loc (w_heap w)))
       (with_heap (<[new_loc (w_heap w) :=
                      filter non_expression (deref (w_heap w) values)]>
                     (w_heap w)) w).
Proof.
  unfold parseSelectValues. unfold_monad. simpl.
  by rewrite deref_alloc, filter_loop.
Qed.

End run.

(** ** The transactional variant *)

Section transactional_run.
Context {DB : Type} (dbMan : dbManager DB).

Lemma checkIfExisting_run tableName values (w : world DB) :
  let vs := deref (w_heap w) values in
  checkIfExisting dbMan tableName values w
  = Ok (check_outcome dbMan tableName vs (w_db w)).1
       (World (<[new_loc (w_heap w) := filter non_expression vs]> (w_heap w))
              (check_outcome dbMan tableName vs (w_db w)).2
              (w_trace w ++ check_events dbMan tableName vs)).
Proof.
  intros vs. unfold checkIfExisting.
  unfold mbind at 1, M_bind. rewrite parseSelectValues_run.
  unfold check_outcome, check_events, check_stmt, selectBuilder.
  unfold_monad. simpl. rewrite lookup_insert_eq. simpl. fold vs.
  destruct (to_sql _ _) as [err|]; simpl.
  - by rewrite app_nil_r.
  - by destruct (tx_query_row_scan _ _ _).
Qed.

Lemma rollback_then_Fatalf (msg : string) (w : world DB) :
  (rollback dbMan ;; Fatalf msg : M DB unit) w
  = Abort (fatal_after_rollback (tx_rollback (db dbMan) (w_db w)).1 msg)
          (after_call EvRollback (tx_rollback (db dbMan) (w_db w)).2 w).
Proof.
  unfold rollback, after_call. unfold_monad.
  by destruct (tx_rollback _ _) as [[err|] d'].
Qed.

Lemma commit_run (w : world DB) :
  commit dbMan w
  = let w' := after_call EvCommit (tx_commit (db dbMan) (w_db w)).2 w in
    match (tx_commit (db dbMan) (w_db w)).1 with
    | Some err =>
        Abort (Fatal ("Test setup failed: could not commit transaction: "
                      +:+ Error err)) w'
    | None => Ok tt w'
    end.
Proof.
  unfold commit, after_call. unfold_monad.
  by destruct (tx_commit _ _) as [[err|] d'].
Qed.

(** One call of [ResolveTestRecord] on a known relation, step by step. *)
Lemma ResolveTestRecord_run tableName stringID defaultValue sets (w : world DB) :
  defaultRelationValues dbMan !! tableName = Some defaultValue →
  let vs := assign_all (deref (w_heap w) defaultValue) sets in
  let h1 := <[new_loc (w_heap w) := vs]> (w_heap w) in
  let h2 := <[new_loc h1 := filter non_expression vs]> h1 in
  let ins := insert_stmt tableName vs in
  Transactional.ResolveTestRecord dbMan tableName stringID (overrides sets) w
  = match db_begin (db dbMan) (w_db w) with
    | (Some err, d1) =>
        Abort (Fatal ("Test setup failed: could not start transaction: "
                      +:+ Error err))
              (World h1 d1 (w_trace w ++ [EvBegin]))
    | (None, d1) =>
        let w2 := World h2 (check_outcome dbMan tableName vs d1).2
                    ((w_trace w ++ [EvBegin]) ++ check_events dbMan tableName vs) in
        match (check_outcome dbMan tableName vs d1).1 with
        | Some ErrNoRows =>
            match to_sql (db dbMan) ins with
            | Some err =>
                (rollback dbMan ;;
                 Fatalf ("Test setup failed: could not generate sql string for '"
                         +:+ tableName +:+ "': " +:+ Error err) : M DB unit) w2
            | None =>
                let w3 := after_call (EvTxQuery ins)
                            (tx_query (db dbMan) ins (w_db w2)).2 w2 in
                match (tx_query (db dbMan) ins (w_db w2)).1 with
                | Some err =>
                    (rollback dbMan ;;
                     Fatalf ("Test setup failed: could not create test record for '"
                             +:+ tableName +:+ "': " +:+ Error err) : M DB unit) w3
                | None => commit dbMan w3
                end
            end
        | Some err =>
            (rollback dbMan ;;
             Fatalf ("failed during checkIfExisting " +:+ Error err) : M DB unit) w2
        | None => commit dbMan w2
        end
    end.
Proof.
  intros Hknown vs h1 h2 ins. unfold Transactional.ResolveTestRecord.
  unfold mbind at 1, M_bind. rewrite (relationValues_overrides _ _ _ _ _ Hknown).
  fold vs. fold h1.
  unfold mbind at 1, M_bind. unfold call at 1. simpl.
  destruct (db_begin _ _) as [[err|] d1]; [done|].
  unfold mbind at 1, M_bind. rewrite checkIfExisting_run. simpl.
  assert (Hvs : default ∅ (h1 !! new_loc (w_heap w)) = vs).
  { unfold h1. by rewrite lookup_insert_eq. }
  rewrite Hvs. fold h2.
  assert (Hvs2 : default ∅ (h2 !! new_loc (w_heap w)) = vs).
  { unfold h2. rewrite lookup_insert_ne; [done|].
    apply not_eq_sym, new_loc_ne. unfold h1. rewrite lookup_insert_eq. eauto. }
  destruct (check_outcome dbMan tableName vs d1) as [[[|msg]|] d2]; simpl; [| done..].
  unfold mbind at 1, M_bind. unfold get_heap at 1. simpl.
  rewrite Hvs2. fold (insert_stmt tableName vs). fold ins.
  destruct (to_sql _ ins) as [err|]; [done|].
  unfold mbind at 1, M_bind. unfold call at 1. simpl.
  by destruct (tx_query _ _ _) as [[err|] d3].
Qed.

End transactional_run.

(** Equal traces, up to the bracketing of the appends. *)
Ltac trace_eq :=
  simpl; repeat (rewrite <- app_assoc; simpl); try rewrite app_nil_r; done.

Section transactional_claims.
Context {DB : Type} (dbMan : dbManager DB).

(** C1. In the transactional [ResolveTestRecord], once the resolved value
    set is computed and the transaction is open: when the existence check
    reports no matching row, the insert of the full resolved value set
    (expression-valued fields included) into the named relation is executed
    and the transaction is committed; when the check reports a matching row,
    no insert is made and the transaction is committed. *)
Theorem resolve_inserts_when_missing_else_commits
    tableName stringID defaultValue sets (w : world DB) d1 cerr d2 :
  defaultRelationValues dbMan !! tableName = Some defaultValue →
  db_begin (db dbMan) (w_db w) = (None, d1) →
  let vs := assign_all (deref (w_heap w) defaultValue) sets in
  let ins := Insert tableName vs [] in
  let checked := w_trace w ++ [EvBegin] ++ check_events dbMan tableName vs in
  let after :=
    world_of (Transactional.ResolveTestRecord dbMan tableName stringID
                (overrides sets) w) in
  check_outcome dbMan tableName vs d1 = (cerr, d2) →
  (cerr = Some ErrNoRows →
   to_sql (db dbMan) ins = None →
   ∀ d3, tx_query (db dbMan) ins d2 = (None, d3) →
     w_trace after = checked ++ [EvTxQuery ins; EvCommit]
     ∧ w_db after = (tx_commit (db dbMan) d3).2)
  ∧ (cerr = None →
     w_trace after = checked ++ [EvCommit]
     ∧ w_db after = (tx_commit (db dbMan) d2).2).
Proof.
  intros Hknown Hbegin vs ins checked after Hcheck. unfold after.
  rewrite (ResolveTestRecord_run dbMan _ _ _ _ _ Hknown).
  rewrite Hbegin. fold vs. rewrite Hcheck. simpl. split.
  - intros -> Hsql d3 Hins. fold ins. unfold insert_stmt. fold ins.
    rewrite Hsql. simpl. rewrite Hins. simpl. rewrite commit_run.
    unfold checked.
    destruct (tx_commit _ _) as [[err|] d4]; simpl; (split; [trace_eq|done]).
  - intros ->. rewrite commit_run. unfold checked.
    destruct (tx_commit _ _) as [[err|] d4]; simpl; (split; [trace_eq|done]).
Qed.

(** C2. The existence check builds one query: a select of nothing from the
    relation, limited to one row, whose equality filter holds exactly the
    fields of the value set whose value is no SQL expression; no
    expression-valued field is in the filter. *)
Theorem check_filters_on_non_expression_fields
    tableName values (w : world DB) :
  ∃ where_eq : fields,
    (∀ k v, where_eq !! k = Some v
            ↔ deref (w_heap w) values !! k = Some v ∧ is_Sqlizer v = false)
    ∧ (∀ k e, deref (w_heap w) values !! k = Some (VSqlizer e) →
              where_eq !! k = None)
    ∧ let q := Select [EmptyString] tableName where_eq 1 in
      ∃ w', checkIfExisting dbMan tableName values w
            = Ok (match to_sql (db dbMan) q with
                  | Some err => Some err
                  | None => (tx_query_row_scan (db dbMan) q (w_db w)).1
                  end) w'
            ∧ w_trace w'
              = w_trace w ++ (match to_sql (db dbMan) q with
                              | Some _ => []
                              | None => [EvQueryRow q]
                              end).
Proof.
  exists (filter non_expression (deref (w_heap w) values)).
  split; [|split].
  - intros k v. by rewrite map_lookup_filter_Some.
  - intros k e Hk. apply map_lookup_filter_None. right.
    intros v Hv. rewrite Hk in Hv. injection Hv as <-. by unfold non_expression.
  - simpl. rewrite checkIfExisting_run. simpl.
    unfold check_outcome, check_events, check_stmt.
    destruct (to_sql _ _); simpl; eexists; (split; [reflexivity|done]).
Qed.

(** C4, as the code has it. A failure of the existence check other than
    no-rows, and a failure to build or to run the insert, first roll the
    transaction back and then abort the test: the insert failures report
    the relation name and the error, the check failure reports the error
    only; when the rollback fails, the abort reports the rollback's error. *)
Theorem failures_roll_back_then_abort
    tableName stringID defaultValue sets (w : world DB) d1 cerr d2 :
  defaultRelationValues dbMan !! tableName = Some defaultValue →
  db_begin (db dbMan) (w_db w) = (None, d1) →
  let vs := assign_all (deref (w_heap w) defaultValue) sets in
  let ins := Insert tableName vs [] in
  let checked := w_trace w ++ [EvBegin] ++ check_events dbMan tableName vs in
  let outcome :=
    Transactional.ResolveTestRecord dbMan tableName stringID
      (overrides sets) w in
  check_outcome dbMan tableName vs d1 = (cerr, d2) →
  (∀ err, cerr = Some err → err ≠ ErrNoRows →
     ∃ w', outcome
           = Abort (fatal_after_rollback (tx_rollback (db dbMan) d2).1
                      ("failed during checkIfExisting " +:+ Error err)) w'
           ∧ w_trace w' = checked ++ [EvRollback])
  ∧ (∀ err, cerr = Some ErrNoRows → to_sql (db dbMan) ins = Some err →
     ∃ w', outcome
           = Abort (fatal_after_rollback (tx_rollback (db dbMan) d2).1
                      ("Test setup failed: could not generate sql string for '"
                       +:+ tableName +:+ "': " +:+ Error err)) w'
           ∧ w_trace w' = checked ++ [EvRollback])
  ∧ (∀ err d3, cerr = Some ErrNoRows → to_sql (db dbMan) ins = None →
     tx_query (db dbMan) ins d2 = (Some err, d3) →
     ∃ w', outcome
           = Abort (fatal_after_rollback (tx_rollback (db dbMan) d3).1
                      ("Test setup failed: could not create test record for '"
                       +:+ tableName +:+ "': " +:+ Error err)) w'
           ∧ w_trace w' = checked ++ [EvTxQuery ins; EvRollback]).
Proof.
  intros Hknown Hbegin vs ins checked outcome Hcheck. unfold outcome.
  rewrite (ResolveTestRecord_run dbMan _ _ _ _ _ Hknown).
  rewrite Hbegin. fold vs. rewrite Hcheck. simpl. unfold insert_stmt. fold ins.
  unfold checked. split; [|split].
  - intros err -> Hne. destruct err as [|msg]; [done|].
    rewrite rollback_then_Fatalf. eexists. split; [done|]. trace_eq.
  - intros err -> Hsql. rewrite Hsql.
    rewrite rollback_then_Fatalf. eexists. split; [done|]. trace_eq.
  - intros err d3 -> Hsql Hins. rewrite Hsql, Hins. simpl.
    rewrite rollback_then_Fatalf. eexists. split; [done|]. trace_eq.
Qed.

(** C9. The parameter [stringID] of the transactional [ResolveTestRecord]
    has no effect: two calls that differ in it only have the same outcome,
    the same heap (so the same resolved value set), the same database state
    and the same trace of queries. *)
Theorem stringID_has_no_effect
    tableName stringID1 stringID2 opts (w : world DB) :
  Transactional.ResolveTestRecord dbMan tableName stringID1 opts w
  = Transactional.ResolveTestRecord dbMan tableName stringID2 opts w.
Proof. reflexivity. Qed.

End transactional_claims.

(** ** Resolving the value set *)

Lemma assign_all_app d sets1 sets2 :
  assign_all d (sets1 ++ sets2) = assign_all (assign_all d sets1) sets2.
Proof. apply foldl_app. Qed.

Lemma assign_all_untouched sets : ∀ d k,
  k ∉ sets.*1 → assign_all d sets !! k = d !! k.
Proof.
  induction sets as [|[f v] sets IH]; intros d k Hk; simpl; [done|].
  rewrite fmap_cons, not_elem_of_cons in Hk. destruct Hk as [Hne Hk].
  rewrite IH by done. simpl in *. by rewrite lookup_insert_ne.
Qed.

Lemma assign_all_last_wins d sets1 f v sets2 :
  f ∉ sets2.*1 → assign_all d (sets1 ++ (f, v) :: sets2) !! f = Some v.
Proof.
  intros Hf. rewrite assign_all_app. simpl.
  rewrite assign_all_untouched by done. apply lookup_insert_eq.
Qed.

Section resolving_claims.
Context {DB : Type} (dbMan : dbManager DB).

(** C5. The overrides of a call are applied in call order to a copy of the
    defaults of the relation: the resolved value set is the defaults with
    the assignments made one after the other, in a map that is new; an
    override wins over the earlier ones and over the default of its key
    (the value of a key is that of its last override), and a key without
    override keeps its default. *)
Theorem later_override_takes_precedence
    relationName defaultValue sets (w : world DB) :
  defaultRelationValues dbMan !! relationName = Some defaultValue →
  ∃ l w',
    relationValues dbMan relationName (overrides sets) w = Ok (mapref l) w'
    ∧ w_heap w !! l = None
    ∧ let defaults := deref (w_heap w) defaultValue in
      let resolved := deref (w_heap w') (mapref l) in
      resolved = foldl (λ m kv, <[kv.1 := kv.2]> m) defaults sets
      ∧ (∀ sets1 f v sets2,
           sets = sets1 ++ (f, v) :: sets2 → f ∉ sets2.*1 →
           resolved !! f = Some v)
      ∧ (∀ k, k ∉ sets.*1 → resolved !! k = defaults !! k).
Proof.
  intros Hknown. eexists _, _. split; [by apply relationValues_overrides|].
  split; [apply new_loc_fresh|]. simpl. rewrite lookup_insert_eq. simpl.
  split; [done|]. split.
  - intros sets1 f v sets2 -> Hf. by apply assign_all_last_wins.
  - intros k Hk. by apply assign_all_untouched.
Qed.

(** C6. For a relation of the default value table, resolving with no
    override gives a value set with the keys and the values of the stored
    defaults. *)
Theorem no_override_resolves_to_defaults
    relationName defaultValue (w : world DB) :
  defaultRelationValues dbMan !! relationName = Some defaultValue →
  ∃ values w',
    relationValues dbMan relationName [] w = Ok values w'
    ∧ deref (w_heap w') values = deref (w_heap w) defaultValue
    ∧ w_db w' = w_db w ∧ w_trace w' = w_trace w.
Proof.
  intros Hknown. eexists _, _.
  split; [exact (relationValues_overrides dbMan _ _ [] w Hknown)|].
  simpl. by rewrite lookup_insert_eq.
Qed.

End resolving_claims.

(** ** Unknown relations *)

(** C3. For a relation name that is no key of the default value table,
    every call, of any variant and with any overrides, aborts the test with
    the configuration error and leaves the world as it was: no call is made
    on the database and no transaction is opened. *)
Theorem unknown_relation_aborts_before_database_access
    {DB} (dbMan : dbManager DB) tableName stringID opts (w : world DB) :
  defaultRelationValues dbMan !! tableName = None →
  let failure : result DB unit :=
    Abort (Fatal ("no default values for relation '" +:+ tableName +:+ "'")) w in
  Transactional.ResolveTestRecord dbMan tableName stringID opts w = failure
  ∧ Simple.Create dbMan tableName opts w = failure
  ∧ Simple.ResolveTestRecord dbMan tableName opts w = failure.
Proof.
  intros Hunknown failure.
  unfold Transactional.ResolveTestRecord, Simple.Create,
    Simple.ResolveTestRecord.
  unfold mbind, M_bind.
  by rewrite !(relationValues_unknown _ _ _ _ Hunknown).
Qed.

(** ** The simplified variant *)

Section simple_claims.
Context {DB : Type} (dbMan : dbManager DB).

Lemma ResolveTestRecord_is_Create tableName opts :
  Simple.ResolveTestRecord dbMan tableName opts
  = Simple.Create dbMan tableName opts.
Proof. reflexivity. Qed.

(** One call of [Create] on a known relation. *)
Lemma Create_run tableName defaultValue sets (w : world DB) :
  defaultRelationValues dbMan !! tableName = Some defaultValue →
  let vs := assign_all (deref (w_heap w) defaultValue) sets in
  let ins := Insert tableName vs [conflict_suffix] in
  let w' := World (<[new_loc (w_heap w) := vs]> (w_heap w))
              (db_query (db dbMan) ins (w_db w)).2
              (w_trace w ++ [EvQuery ins]) in
  Simple.Create dbMan tableName (overrides sets) w
  = match (db_query (db dbMan) ins (w_db w)).1 with
    | Some err =>
        Abort (Fatal ("Test setup failed: could not create test record for '"
                      +:+ tableName +:+ "': " +:+ Error err)) w'
    | None => Ok tt w'
    end.
Proof.
  intros Hknown vs ins w'. unfold Simple.Create.
  unfold mbind at 1, M_bind. rewrite (relationValues_overrides _ _ _ _ _ Hknown).
  unfold_monad. simpl. rewrite lookup_insert_eq. simpl.
  fold vs. fold conflict_suffix. fold ins.
  by destruct (db_query _ _ _) as [[err|] d'].
Qed.

(** C8. The simplified variant opens no transaction and makes no existence
    check: its one call on the database is the insert of the resolved value
    set with the do-nothing-on-conflict modifier, and it aborts the test if
    and only if that insert returns an error. *)
Theorem create_is_one_insert_ignoring_conflicts
    tableName defaultValue sets (w : world DB) :
  defaultRelationValues dbMan !! tableName = Some defaultValue →
  let vs := assign_all (deref (w_heap w) defaultValue) sets in
  let ins := Insert tableName vs ["ON CONFLICT DO NOTHING"] in
  let outcome := Simple.Create dbMan tableName (overrides sets) w in
  w_trace (world_of outcome) = w_trace w ++ [EvQuery ins]
  ∧ w_db (world_of outcome) = (db_query (db dbMan) ins (w_db w)).2
  ∧ ((∃ msg w', outcome = Abort (Fatal msg) w')
     ↔ is_Some (db_query (db dbMan) ins (w_db w)).1)
  ∧ ((db_query (db dbMan) ins (w_db w)).1 = None →
     outcome = Ok tt (world_of outcome))
  ∧ Simple.ResolveTestRecord dbMan tableName (overrides sets) w = outcome.
Proof.
  intros Hknown vs ins outcome. unfold outcome.
  change (Simple.ResolveTestRecord dbMan tableName (overrides sets) w)
    with (Simple.Create dbMan tableName (overrides sets) w).
  rewrite (Create_run _ _ _ _ Hknown). fold vs. fold ins.
  destruct (db_query _ _ _) as [[err|] d']; simpl.
  - repeat split; eauto; done.
  - repeat split; try done;
      first [intros (msg & w' & H); discriminate | intros [e He]; discriminate].
Qed.

End simple_claims.

(** ** The defaults are not written to *)

Section keeps.
Context {DB : Type}.

Lemma keeps_bind {A B} l (m : M DB A) (f : A → M DB B) :
  keeps l m → (∀ a, keeps l (f a)) → keeps l (m ≫= f).
Proof.
  intros Hm Hf w Hl. unfold mbind, M_bind.
  specialize (Hm w Hl). destruct (m w) as [a w1|e w1]; simpl in *; [|done].
  rewrite <- Hm. apply Hf. by rewrite Hm.
Qed.

Lemma keeps_pure {A} l (m : M DB A) :
  (∀ w, w_heap (world_of (m w)) = w_heap w) → keeps l m.
Proof. intros H w _. by rewrite H. Qed.

Lemma keeps_mret {A} l (a : A) : keeps l (mret a : M DB A).
Proof. by apply keeps_pure. Qed.

Lemma keeps_Fatalf {A} l msg : keeps l (Fatalf msg : M DB A).
Proof. by apply keeps_pure. Qed.

Lemma keeps_get_heap l : keeps l (get_heap : M DB heap).
Proof. by apply keeps_pure. Qed.

Lemma keeps_call l ev op : keeps l (call ev op : M DB (option error)).
Proof. apply keeps_pure. intros w. unfold call. by destruct (op _). Qed.

Lemma keeps_SetFieldValue f v :
  writes_its_argument_only (SetFieldValue f v : RelationValuesOption DB).
Proof.
  intros [|l'] l Hne w Hl; simpl; [done|].
  apply store_lookup_ne. congruence.
Qed.

Lemma keeps_overrides sets :
  Forall writes_its_argument_only (overrides sets : list (RelationValuesOption DB)).
Proof.
  unfold overrides. apply Forall_fmap, Forall_true.
  intros [f v]. apply keeps_SetFieldValue.
Qed.

Lemma keeps_apply_opts l (opts : list (RelationValuesOption DB)) values :
  Forall writes_its_argument_only opts → values ≠ mapref l →
  keeps l (apply_opts opts values).
Proof.
  intros Hopts Hne. induction Hopts as [|opt opts Hopt _ IH]; simpl.
  - apply keeps_mret.
  - apply keeps_bind; [by apply Hopt|done].
Qed.

Lemma keeps_parseSelectValues l values :
  keeps l (parseSelectValues values : M DB RelationValues).
Proof.
  intros w Hl. rewrite parseSelectValues_run. simpl.
  apply lookup_insert_ne, not_eq_sym. by apply new_loc_ne.
Qed.

Lemma keeps_commit (dbMan : dbManager DB) l : keeps l (commit dbMan).
Proof.
  apply keeps_bind; [apply keeps_call|].
  intros [err|]; [apply keeps_Fatalf|apply keeps_mret].
Qed.

Lemma keeps_rollback (dbMan : dbManager DB) l : keeps l (rollback dbMan).
Proof.
  apply keeps_bind; [apply keeps_call|].
  intros [err|]; [apply keeps_Fatalf|apply keeps_mret].
Qed.

Lemma keeps_checkIfExisting (dbMan : dbManager DB) l tableName values :
  keeps l (checkIfExisting dbMan tableName values).
Proof.
  apply keeps_bind; [apply keeps_parseSelectValues|]. intros selectValues.
  apply keeps_bind; [apply keeps_get_heap|]. intros h. simpl.
  destruct (to_sql _ _); [apply keeps_mret|apply keeps_call].
Qed.

Lemma keeps_relationValues (dbMan : dbManager DB) l relationName opts :
  Forall writes_its_argument_only opts →
  keeps l (relationValues dbMan relationName opts).
Proof.
  intros Hopts w Hl. unfold relationValues. unfold mbind at 1, M_bind.
  destruct (defaultRelationValues dbMan !! relationName) as [d|] eqn:Hd.
  - rewrite (getDefaultRelationValues_known _ _ _ _ Hd).
    assert (Hne : l ≠ new_loc (w_heap w)) by by apply new_loc_ne.
    set (w1 := with_heap _ w).
    assert (H1 : w_heap w1 !! l = w_heap w !! l).
    { unfold w1. simpl. by rewrite lookup_insert_ne. }
    rewrite <- H1. apply keeps_bind.
    + apply keeps_apply_opts; [done|congruence].
    + intros _. apply keeps_mret.
    + by rewrite H1.
  - by rewrite (getDefaultRelationValues_unknown _ _ _ Hd).
Qed.

End keeps.

Section never_mutated.
Context {DB : Type} (dbMan : dbManager DB).

Lemma keeps_Transactional_ResolveTestRecord l tableName stringID opts :
  Forall writes_its_argument_only opts →
  keeps l (Transactional.ResolveTestRecord dbMan tableName stringID opts).
Proof.
  intros Hopts. unfold Transactional.ResolveTestRecord.
  apply keeps_bind; [by apply keeps_relationValues|]. intros values.
  apply keeps_bind; [apply keeps_call|]. intros [err|]; [apply keeps_Fatalf|].
  apply keeps_bind; [apply keeps_checkIfExisting|].
  intros [[|msg]|]; [| |apply keeps_commit].
  - apply keeps_bind; [apply keeps_get_heap|]. intros h. simpl.
    destruct (to_sql _ _).
    + apply keeps_bind; [apply keeps_rollback|]. intros _. apply keeps_Fatalf.
    + apply keeps_bind; [apply keeps_call|]. intros [err|].
      * apply keeps_bind; [apply keeps_rollback|]. intros _. apply keeps_Fatalf.
      * apply keeps_commit.
  - apply keeps_bind; [apply keeps_rollback|]. intros _. apply keeps_Fatalf.
Qed.

Lemma keeps_Simple_Create l tableName opts :
  Forall writes_its_argument_only opts →
  keeps l (Simple.Create dbMan tableName opts).
Proof.
  intros Hopts. unfold Simple.Create.
  apply keeps_bind; [by apply keeps_relationValues|]. intros values.
  apply keeps_bind; [apply keeps_get_heap|]. intros h. simpl.
  apply keeps_bind; [apply keeps_call|].
  intros [err|]; [apply keeps_Fatalf|apply keeps_mret].
Qed.

Lemma keeps_deref {A} l (m : M DB A) (w : world DB) :
  keeps l m → is_Some (w_heap w !! l) →
  deref (w_heap (world_of (m w))) (mapref l) = deref (w_heap w) (mapref l).
Proof. intros Hm Hl. simpl. by rewrite Hm. Qed.

(** C7. No operation writes to the default value table: after a call of
    [ResolveTestRecord] or [Create], for any relation name and any sequence
    of overrides that write to the map they are given, the stored defaults
    of every relation are what they were; the overrides work on the copy
    that [getDefaultRelationValues] makes. *)
Theorem defaults_are_never_mutated
    tableName stringID opts (w : world DB) :
  defaults_allocated dbMan (w_heap w) →
  Forall writes_its_argument_only opts →
  ∀ relationName defaultValue,
    defaultRelationValues dbMan !! relationName = Some defaultValue →
    let unchanged (after : result DB unit) :=
      deref (w_heap (world_of after)) defaultValue
      = deref (w_heap w) defaultValue in
    unchanged (Transactional.ResolveTestRecord dbMan tableName stringID opts w)
    ∧ unchanged (Simple.Create dbMan tableName opts w)
    ∧ unchanged (Simple.ResolveTestRecord dbMan tableName opts w).
Proof.
  intros Halloc Hopts relationName defaultValue Hd unchanged.
  specialize (Halloc _ _ Hd). unfold unchanged.
  destruct defaultValue as [|l]; [done|]. simpl in Halloc.
  split; [|split].
  - by apply keeps_deref; [apply keeps_Transactional_ResolveTestRecord|].
  - by apply keeps_deref; [apply keeps_Simple_Create|].
  - by apply (keeps_deref l (Simple.Create dbMan tableName opts));
      [apply keeps_Simple_Create|].
Qed.

End never_mutated.

(** ** A value set of expressions only *)

Section expressions_only.
Variable eval : sqlexpr → scalar.

Lemma filter_expressions_only (vs : fields) :
  map_Forall (λ _ v, is_Sqlizer v = true) vs →
  filter non_expression vs = ∅.
Proof.
  intros Hall. apply map_empty. intros k. apply map_lookup_filter_None.
  right. intros v Hv. unfold non_expression. simpl.
  rewrite (Hall _ _ Hv). done.
Qed.

Lemma matches_empty_filter (r : row) : MemDB.matches ∅ r = true.
Proof.
  unfold MemDB.matches. apply bool_decide_eq_true. apply map_Forall_empty.
Qed.

(** C10. When every value of the resolved value set is a SQL expression,
    the filter of the existence check is empty, so that on the reference
    database the check finds a row as soon as the table has one, whatever
    the fields of its rows: the call commits without an insert. *)
Theorem expressions_only_match_any_row
    defaults tableName stringID defaultValue sets (w : world memdb) r rows :
  let dbMan := {| db := MemDB.driver eval; defaultRelationValues := defaults |} in
  let vs := assign_all (deref (w_heap w) defaultValue) sets in
  let outcome :=
    Transactional.ResolveTestRecord dbMan tableName stringID
      (overrides sets) w in
  defaults !! tableName = Some defaultValue →
  map_Forall (λ _ v, is_Sqlizer v = true) vs →
  committed (w_db w) !! tableName = Some (r :: rows) →
  filter non_expression vs = ∅
  ∧ outcome = Ok tt (world_of outcome)
  ∧ w_trace (world_of outcome)
    = w_trace w ++ [EvBegin; EvQueryRow (Select [EmptyString] tableName ∅ 1);
                    EvCommit]
  ∧ w_db (world_of outcome) = MemDB (committed (w_db w)) None.
Proof.
  intros dbMan vs outcome Hknown Hall Hrows.
  pose proof (filter_expressions_only vs Hall) as Hfilter.
  split; [done|]. unfold outcome.
  rewrite (ResolveTestRecord_run dbMan _ _ _ _ _ Hknown). fold vs.
  unfold check_outcome, check_events, check_stmt. rewrite Hfilter. simpl.
  unfold MemDB.in_tx. simpl. rewrite Hrows. simpl.
  rewrite filter_cons_True by apply matches_empty_filter. simpl.
  rewrite commit_run. simpl. repeat split. trace_eq.
Qed.

End expressions_only.

(** * The scenarios, run *)

Section scenarios.
Import Scenario.

Let resolve := Transactional.ResolveTestRecord dbMan.

(** Resolving the same record twice leaves one row: the second call finds
    it and makes no insert. *)
Example resolve_twice_one_row :
  let w1 := world_of (resolve "users" "u1" [] world0) in
  let w2 := world_of (resolve "users" "u1" [] w1) in
  committed (w_db w2) !! "users" = Some [alice]
  ∧ drop (length (w_trace w1)) (w_trace w2)
    = [EvBegin; EvQueryRow (Select [EmptyString] "users" user_defaults 1);
       EvCommit].
Proof. vm_compute. done. Qed.

(** An override of the id makes a second, distinct row. *)
Example resolve_other_id_second_row :
  let w1 := world_of (resolve "users" "u1" [] world0) in
  let w2 := world_of (resolve "users" "u2"
                        [SetFieldValue "id" (VScalar (SString "u2"))] w1) in
  committed (w_db w2) !! "users" = Some [alice; alice2].
Proof. vm_compute. done. Qed.

(** An expression-valued field is written with the value it takes at the
    insert, and is not compared by the check. *)
Example resolve_event_evaluates_expressions :
  let w1 := world_of (resolve "events" "e1" [] world0) in
  committed (w_db w1) !! "events"
  = Some [ {[ "created_at" := now (Expr "CURRENT_TIMESTAMP" []);
              "updated_at" := now (Expr "CURRENT_TIMESTAMP" []) ]} ].
Proof. vm_compute. done. Qed.

(** The message of a failed insert names the relation; [mentions] finds it. *)
Example insert_failure_message_names_relation :
  mentions "users"
    ("Test setup failed: could not create test record for '" +:+ "users"
     +:+ "': " +:+ Error bad_conn) = true.
Proof. reflexivity. Qed.

End scenarios.

(** * The claims at concrete calls *)

Section witnesses.
Import Scenario.

(** C1 on empty tables: the check finds no row, the full default value set
    is inserted and the transaction is committed. *)
Lemma resolve_inserts_when_missing_else_commits_witness :
  w_trace (world_of (Transactional.ResolveTestRecord dbMan "users" "u1"
                       (overrides []) world0))
  = [EvBegin; EvQueryRow (Select [EmptyString] "users" user_defaults 1);
     EvTxQuery (Insert "users" user_defaults []); EvCommit].
Proof.
  pose proof (resolve_inserts_when_missing_else_commits dbMan "users" "u1"
                (mapref users) [] world0 _ _ _ eq_refl eq_refl eq_refl)
    as [Hmissing _].
  exact (proj1 (Hmissing eq_refl eq_refl _ eq_refl)).
Defined.

(** C3 on the relation "orders", which has no defaults. *)
Lemma unknown_relation_aborts_before_database_access_witness :
  Transactional.ResolveTestRecord dbMan "orders" "o1" [] world0
  = Abort (Fatal "no default values for relation 'orders'") world0.
Proof.
  exact (proj1 (unknown_relation_aborts_before_database_access dbMan
                  "orders" "o1" [] world0 eq_refl)).
Defined.

(** C4 on a connection lost during the check: the transaction is rolled
    back and the abort carries the error of the check. *)
Lemma failures_roll_back_then_abort_witness :
  ∃ w', Transactional.ResolveTestRecord dbMan_lossy "users" "u1" (overrides [])
          world0
        = Abort (Fatal "failed during checkIfExisting driver: bad connection") w'
        ∧ w_trace w'
          = [EvBegin; EvQueryRow (Select [EmptyString] "users" user_defaults 1);
             EvRollback].
Proof.
  pose proof (failures_roll_back_then_abort dbMan_lossy "users" "u1"
                (mapref users) [] world0 _ _ _ eq_refl eq_refl eq_refl)
    as [Hcheck _].
  exact (Hcheck bad_conn eq_refl ltac:(discriminate)).
Defined.

(** C4 as stated fails there: the check fails, and the message of the abort
    does not have the relation name in it. *)
Lemma check_failure_does_not_report_relation :
  check_outcome dbMan_lossy "users" user_defaults
    (db_begin lossy (w_db world0)).2
  = (Some bad_conn, (db_begin lossy (w_db world0)).2)
  ∧ ¬ reports_relation_and_error
        (Transactional.ResolveTestRecord dbMan_lossy "users" "u1"
           (overrides []) world0)
        "users" bad_conn.
Proof.
  split; [reflexivity|].
  intros (msg & w' & Hrun & Hname & _).
  vm_compute in Hrun. injection Hrun as <- _.
  vm_compute in Hname. discriminate.
Qed.

(** C5: of two overrides of the id, the later one wins, and the name keeps
    its default. *)
Lemma later_override_takes_precedence_witness :
  ∃ l w',
    relationValues dbMan "users"
      (overrides [("id", VScalar (SString "u2")); ("id", VScalar (SString "u3"))])
      world0 = Ok (mapref l) w'
    ∧ deref (w_heap w') (mapref l) !! "id" = Some (VScalar (SString "u3"))
    ∧ deref (w_heap w') (mapref l) !! "name" = Some (VScalar (SString "Alice")).
Proof.
  destruct (later_override_takes_precedence dbMan "users" (mapref users)
              [("id", VScalar (SString "u2")); ("id", VScalar (SString "u3"))]
              world0 eq_refl)
    as (l & w' & Hrun & _ & Hfold & _ & _).
  exists l, w'. split; [exact Hrun|]. rewrite Hfold. split; reflexivity.
Defined.

(** C6 on the relation "users". *)
Lemma no_override_resolves_to_defaults_witness :
  ∃ values w',
    relationValues dbMan "users" [] world0 = Ok values w'
    ∧ deref (w_heap w') values = user_defaults
    ∧ w_db w' = w_db world0 ∧ w_trace w' = w_trace world0.
Proof.
  exact (no_override_resolves_to_defaults dbMan "users" (mapref users) world0
           eq_refl).
Defined.

(** C7: the stored defaults of "users" after a call that overrides the id. *)
Lemma defaults_are_never_mutated_witness :
  deref (w_heap (world_of
           (Transactional.ResolveTestRecord dbMan "users" "u2"
              (overrides [("id", VScalar (SString "u2"))]) world0)))
    (mapref users)
  = user_defaults.
Proof.
  refine (proj1 (defaults_are_never_mutated dbMan "users" "u2"
                   (overrides [("id", VScalar (SString "u2"))]) world0
                   _ (keeps_overrides _) "users" (mapref users) eq_refl)).
  unfold defaults_allocated. apply (bool_decide_unpack _). vm_compute. exact I.
Defined.

(** C8 on empty tables. *)
Lemma create_is_one_insert_ignoring_conflicts_witness :
  w_trace (world_of (Simple.Create dbMan "users" (overrides []) world0))
  = [EvQuery (Insert "users" user_defaults ["ON CONFLICT DO NOTHING"])].
Proof.
  exact (proj1 (create_is_one_insert_ignoring_conflicts dbMan "users"
                  (mapref users) [] world0 eq_refl)).
Defined.

(** C10: the defaults of "events" are expressions only, and the stored event
    matches the empty filter though none of its fields was compared. *)
Lemma expressions_only_match_any_row_witness :
  w_trace (world_of (Transactional.ResolveTestRecord dbMan "events" "e1"
                       (overrides []) world_one_event))
  = [EvBegin; EvQueryRow (Select [EmptyString] "events" ∅ 1); EvCommit].
Proof.
  refine (proj1 (proj2 (proj2
            (expressions_only_match_any_row now defaults "events" "e1"
               (mapref events) [] world_one_event old_event [] eq_refl _
               eq_refl)))).
  apply (bool_decide_unpack _). vm_compute. exact I.
Defined.

End witnesses.

(** * Further properties of the code *)

(** Every way a call of the transactional [ResolveTestRecord] can go, by
    cases on what the collaborators return. *)
Ltac resolve_cases :=
  unfold check_outcome, check_events; cbv zeta;
  repeat match goal with
    | |- context [match ?e with ErrNoRows => _ | ErrOther _ => _ end] =>
        destruct e
    | |- context [(rollback ?m ;; Fatalf ?msg) ?w] =>
        rewrite (rollback_then_Fatalf m msg w)
    | |- context [commit ?m ?w] => rewrite (commit_run m w); cbv zeta
    | |- context [db_begin ?d ?x] =>
        destruct (db_begin d x) as [[?|] ?] eqn:?
    | |- context [to_sql ?d ?s] => destruct (to_sql d s) eqn:?
    | |- context [tx_query_row_scan ?d ?s ?x] =>
        destruct (tx_query_row_scan d s x) as [[[|?]|] ?] eqn:?
    | |- context [tx_query ?d ?s ?x] =>
        destruct (tx_query d s x) as [[?|] ?] eqn:?
    | |- context [tx_rollback ?d ?x] =>
        destruct (tx_rollback d x) as [[?|] ?] eqn:?
    | |- context [tx_commit ?d ?x] =>
        destruct (tx_commit d x) as [[?|] ?] eqn:?
    | _ => progress simpl
    end.

(** The calls that a run added to the trace. *)
Ltac added_calls :=
  simpl; repeat (rewrite <- app_assoc; simpl); reflexivity.

Section transaction_shape.
Context {DB : Type} (dbMan : dbManager DB).

(** The calls a run of the transactional [ResolveTestRecord] adds to the
    trace, and how they go with its outcome. *)
Lemma ResolveTestRecord_shape tableName stringID sets (w : world DB) :
  let outcome :=
    Transactional.ResolveTestRecord dbMan tableName stringID
      (overrides sets) w in
  ∃ added,
    w_trace (world_of outcome) = w_trace w ++ added
    ∧ ((calls is_begin added ≤ 1)%nat
       ∧ (calls is_query_row added ≤ 1)%nat
       ∧ (calls is_tx_query added ≤ 1)%nat
       ∧ calls is_query added = 0%nat
       ∧ (calls is_commit added + calls is_rollback added
          ≤ calls is_begin added)%nat)
    ∧ (∀ w', outcome = Ok tt w' →
         last added = Some EvCommit
         ∧ calls is_commit added = 1%nat ∧ calls is_rollback added = 0%nat)
    ∧ (is_Some (defaultRelationValues dbMan !! tableName) →
       (db_begin (db dbMan) (w_db w)).1 = None →
       (calls is_commit added + calls is_rollback added)%nat = 1%nat)
    ∧ is_panic outcome = false.
Proof.
  intros outcome. unfold outcome.
  destruct (defaultRelationValues dbMan !! tableName) as [d|] eqn:Hd.
  - rewrite (ResolveTestRecord_run dbMan _ _ _ _ _ Hd).
    resolve_cases; eexists; (split; [added_calls|]); unfold calls; simpl;
      (repeat split; try lia; try done; try discriminate).
  - unfold Transactional.ResolveTestRecord. unfold mbind, M_bind.
    rewrite (relationValues_unknown _ _ _ _ Hd). simpl.
    exists []. split; [by rewrite app_nil_r|]. unfold calls. simpl.
    repeat split; try lia; done.
Qed.

(** X1. Whatever the collaborators return, a call of the transactional
    [ResolveTestRecord] begins at most one transaction, runs at most one
    select and at most one insert, makes no call outside the transaction,
    and closes no more transactions than it began. *)
Theorem at_most_one_transaction_per_call
    tableName stringID sets (w : world DB) :
  ∃ added,
    w_trace (world_of (Transactional.ResolveTestRecord dbMan tableName
                         stringID (overrides sets) w))
    = w_trace w ++ added
    ∧ (calls is_begin added ≤ 1)%nat
    ∧ (calls is_query_row added ≤ 1)%nat
    ∧ (calls is_tx_query added ≤ 1)%nat
    ∧ calls is_query added = 0%nat
    ∧ (calls is_commit added + calls is_rollback added
       ≤ calls is_begin added)%nat.
Proof.
  destruct (ResolveTestRecord_shape tableName stringID sets w)
    as (added & Htrace & Hcounts & _).
  exists added. by split.
Qed.

(** X2. On a known relation, when [Begin] succeeds, the transaction is
    closed exactly once, by [Commit] or by [Rollback], on every path. *)
Theorem opened_transaction_is_closed_once
    tableName stringID defaultValue sets (w : world DB) d1 :
  defaultRelationValues dbMan !! tableName = Some defaultValue →
  db_begin (db dbMan) (w_db w) = (None, d1) →
  ∃ added,
    w_trace (world_of (Transactional.ResolveTestRecord dbMan tableName
                         stringID (overrides sets) w))
    = w_trace w ++ added
    ∧ (calls is_commit added + calls is_rollback added)%nat = 1%nat
    ∧ calls is_begin added = 1%nat.
Proof.
  intros Hknown Hbegin.
  destruct (ResolveTestRecord_shape tableName stringID sets w)
    as (added & Htrace & Hcounts & _ & Hclosed & _).
  exists added. split; [done|].
  assert (Hone : (calls is_commit added + calls is_rollback added)%nat = 1%nat).
  { apply Hclosed; [by rewrite Hknown|by rewrite Hbegin]. }
  split; [done|]. lia.
Qed.

(** X3. When the transactional [ResolveTestRecord] returns to its caller,
    the last call it made is a [Commit], one commit was made and nothing
    was rolled back. *)
Theorem normal_return_means_committed
    tableName stringID sets (w w' : world DB) :
  Transactional.ResolveTestRecord dbMan tableName stringID (overrides sets) w
  = Ok tt w' →
  ∃ added,
    w_trace w' = w_trace w ++ added
    ∧ last added = Some EvCommit
    ∧ calls is_commit added = 1%nat
    ∧ calls is_rollback added = 0%nat.
Proof.
  intros Hok.
  destruct (ResolveTestRecord_shape tableName stringID sets w)
    as (added & Htrace & _ & Hcommitted & _).
  exists added. split; [by rewrite Hok in Htrace|]. exact (Hcommitted w' Hok).
Qed.

(** X4. With overrides made by [SetFieldValue], no entry point panics: the
    map the overrides assign to is the one [make] returned, also when the
    stored default is a nil map. Every abort is a [Fatalf]. *)
Theorem overrides_never_panic tableName stringID sets (w : world DB) :
  is_panic (Transactional.ResolveTestRecord dbMan tableName stringID
              (overrides sets) w) = false
  ∧ is_panic (Simple.Create dbMan tableName (overrides sets) w) = false
  ∧ is_panic (Simple.ResolveTestRecord dbMan tableName (overrides sets) w)
    = false
  ∧ is_panic (relationValues dbMan tableName (overrides sets) w) = false.
Proof.
  split.
  { by destruct (ResolveTestRecord_shape tableName stringID sets w)
      as (added & _ & _ & _ & _ & Hpanic). }
  change (Simple.ResolveTestRecord dbMan tableName (overrides sets) w)
    with (Simple.Create dbMan tableName (overrides sets) w).
  destruct (defaultRelationValues dbMan !! tableName) as [d|] eqn:Hd.
  - rewrite (Create_run dbMan _ _ _ _ Hd).
    rewrite (relationValues_overrides dbMan _ _ _ _ Hd).
    by destruct (db_query _ _ _) as [[err|] d'].
  - unfold Simple.Create. unfold mbind, M_bind.
    by rewrite (relationValues_unknown _ _ _ _ Hd).
Qed.

End transaction_shape.

Section transaction_failures.
Context {DB : Type} (dbMan : dbManager DB).

(** X5. When the transaction cannot be started, the call aborts with the
    error of [Begin] after that one call: nothing is queried, committed or
    rolled back. *)
Theorem begin_failure_aborts_without_queries
    tableName stringID defaultValue sets (w : world DB) err d1 :
  defaultRelationValues dbMan !! tableName = Some defaultValue →
  db_begin (db dbMan) (w_db w) = (Some err, d1) →
  ∃ w',
    Transactional.ResolveTestRecord dbMan tableName stringID
      (overrides sets) w
    = Abort (Fatal ("Test setup failed: could not start transaction: "
                    +:+ Error err)) w'
    ∧ w_trace w' = w_trace w ++ [EvBegin]
    ∧ w_db w' = d1.
Proof.
  intros Hknown Hbegin.
  rewrite (ResolveTestRecord_run dbMan _ _ _ _ _ Hknown), Hbegin.
  by eexists.
Qed.

(** X6. A failure of [Commit] aborts the call with the error of the commit
    and is not followed by a rollback, on the path that found the row as on
    the path that inserted it. *)
Theorem commit_failure_aborts_without_rollback
    tableName stringID defaultValue sets (w : world DB) d1 cerr d2 :
  defaultRelationValues dbMan !! tableName = Some defaultValue →
  db_begin (db dbMan) (w_db w) = (None, d1) →
  let vs := assign_all (deref (w_heap w) defaultValue) sets in
  let ins := Insert tableName vs [] in
  let checked := w_trace w ++ [EvBegin] ++ check_events dbMan tableName vs in
  let outcome :=
    Transactional.ResolveTestRecord dbMan tableName stringID
      (overrides sets) w in
  let failure err :=
    Fatal ("Test setup failed: could not commit transaction: " +:+ Error err) in
  check_outcome dbMan tableName vs d1 = (cerr, d2) →
  (∀ err d3, cerr = None → tx_commit (db dbMan) d2 = (Some err, d3) →
     ∃ w', outcome = Abort (failure err) w'
           ∧ w_trace w' = checked ++ [EvCommit] ∧ w_db w' = d3)
  ∧ (∀ err d3 d4, cerr = Some ErrNoRows → to_sql (db dbMan) ins = None →
     tx_query (db dbMan) ins d2 = (None, d3) →
     tx_commit (db dbMan) d3 = (Some err, d4) →
     ∃ w', outcome = Abort (failure err) w'
           ∧ w_trace w' = checked ++ [EvTxQuery ins; EvCommit] ∧ w_db w' = d4).
Proof.
  intros Hknown Hbegin vs ins checked outcome failure Hcheck. unfold outcome.
  rewrite (ResolveTestRecord_run dbMan _ _ _ _ _ Hknown).
  rewrite Hbegin. fold vs. rewrite Hcheck. simpl. unfold insert_stmt. fold ins.
  unfold checked. split.
  - intros err d3 -> Hcommit. rewrite commit_run. simpl. rewrite Hcommit. simpl.
    eexists. split; [done|]. split; [trace_eq|done].
  - intros err d3 d4 -> Hsql Hins Hcommit. rewrite Hsql, Hins. simpl.
    rewrite commit_run. simpl. rewrite Hcommit. simpl.
    eexists. split; [done|]. split; [trace_eq|done].
Qed.

End transaction_failures.

Section no_leak.
Context {DB : Type} (dbMan : dbManager DB).

(** X7. Resolutions do not leak into each other: after a call of any entry
    point, with any overrides that write to the map they are given, a
    resolution with no override still gives the defaults the relation had
    before that call. *)
Theorem resolution_after_a_call_gives_defaults
    tableName stringID opts relationName defaultValue (w : world DB) :
  defaults_allocated dbMan (w_heap w) →
  Forall writes_its_argument_only opts →
  defaultRelationValues dbMan !! relationName = Some defaultValue →
  let defaults_again (after : result DB unit) :=
    ∃ values w2,
      relationValues dbMan relationName [] (world_of after) = Ok values w2
      ∧ deref (w_heap w2) values = deref (w_heap w) defaultValue in
  defaults_again (Transactional.ResolveTestRecord dbMan tableName stringID
                    opts w)
  ∧ defaults_again (Simple.Create dbMan tableName opts w).
Proof.
  intros Halloc Hopts Hknown defaults_again.
  assert (Hgen : ∀ after : result DB unit,
             deref (w_heap (world_of after)) defaultValue
             = deref (w_heap w) defaultValue → defaults_again after).
  { intros after Hsame. eexists _, _.
    split; [exact (relationValues_overrides dbMan _ _ [] _ Hknown)|].
    simpl. by rewrite lookup_insert_eq. }
  specialize (Halloc _ _ Hknown).
  split; apply Hgen; (destruct defaultValue as [|l]; [done|]).
  - by apply keeps_deref; [apply keeps_Transactional_ResolveTestRecord|].
  - by apply keeps_deref; [apply keeps_Simple_Create|].
Qed.

(** X8. [parseSelectValues] returns a map that is new, leaves every map of
    the heap as it was, makes no call on the database, and what it returns
    is a part of the value set: the whole of it when no value is an
    expression. *)
Theorem parseSelectValues_gives_new_part values (w : world DB) :
  ∃ l w',
    parseSelectValues values w = Ok (mapref l) w'
    ∧ w_heap w !! l = None
    ∧ (∀ l0, is_Some (w_heap w !! l0) → w_heap w' !! l0 = w_heap w !! l0)
    ∧ w_db w' = w_db w ∧ w_trace w' = w_trace w
    ∧ deref (w_heap w') (mapref l) ⊆ deref (w_heap w) values
    ∧ (map_Forall (λ _ v, is_Sqlizer v = false) (deref (w_heap w) values) →
       deref (w_heap w') (mapref l) = deref (w_heap w) values).
Proof.
  eexists _, _. split; [apply parseSelectValues_run|].
  split; [apply new_loc_fresh|]. simpl. rewrite lookup_insert_eq. simpl.
  split.
  { intros l0 Hl0. apply lookup_insert_ne, not_eq_sym. by apply new_loc_ne. }
  repeat split.
  - apply map_filter_subseteq.
  - intros Hnone. apply map_filter_id. intros k v Hkv.
    exact (Hnone k v Hkv).
Qed.

End no_leak.

(** ** Overrides and the order of things *)

Lemma assign_all_assigned d sets k v :
  NoDup sets.*1 → (k, v) ∈ sets → assign_all d sets !! k = Some v.
Proof.
  intros Hnodup Hin.
  apply list_elem_of_split in Hin as (sets1 & sets2 & ->).
  apply assign_all_last_wins.
  rewrite fmap_app, fmap_cons in Hnodup.
  apply NoDup_app in Hnodup as (_ & _ & Hnodup).
  by apply NoDup_cons in Hnodup as [Hk _].
Qed.

Lemma assign_all_permutation d sets sets' :
  NoDup sets.*1 → sets' ≡ₚ sets → assign_all d sets' = assign_all d sets.
Proof.
  intros Hnodup Hperm. apply map_eq. intros k.
  destruct (decide (k ∈ sets.*1)) as [Hin|Hout].
  - apply list_elem_of_fmap in Hin as ([k' v] & -> & Hin). simpl.
    rewrite (assign_all_assigned d sets k' v) by done.
    apply assign_all_assigned.
    + by rewrite Hperm.
    + by rewrite Hperm.
  - rewrite !assign_all_untouched; [done|done|]. by rewrite Hperm.
Qed.

Lemma foldl_foldr_rev {A B} (f : A → B → A) (a : A) (l : list B) :
  foldl f a l = foldr (flip f) a (rev l).
Proof.
  revert a. induction l as [|x l IH]; intros a; simpl; [done|].
  by rewrite IH, foldr_snoc.
Qed.

Section order.
Context {DB : Type} (dbMan : dbManager DB).

(** X9. Overrides of distinct fields commute: made in any order, they give
    the same resolved value set, and so the same outcome of every entry
    point. *)
Theorem overrides_of_distinct_fields_commute
    tableName stringID sets sets' (w : world DB) :
  NoDup sets.*1 →
  sets' ≡ₚ sets →
  relationValues dbMan tableName (overrides sets') w
  = relationValues dbMan tableName (overrides sets) w
  ∧ Transactional.ResolveTestRecord dbMan tableName stringID
      (overrides sets') w
    = Transactional.ResolveTestRecord dbMan tableName stringID
        (overrides sets) w
  ∧ Simple.Create dbMan tableName (overrides sets') w
    = Simple.Create dbMan tableName (overrides sets) w.
Proof.
  intros Hnodup Hperm.
  assert (Hsame : relationValues dbMan tableName (overrides sets') w
                  = relationValues dbMan tableName (overrides sets) w).
  { destruct (defaultRelationValues dbMan !! tableName) as [d|] eqn:Hd.
    - rewrite !(relationValues_overrides dbMan _ _ _ _ Hd).
      by rewrite (assign_all_permutation _ sets sets').
    - by rewrite !(relationValues_unknown dbMan _ _ _ Hd). }
  split; [done|].
  unfold Transactional.ResolveTestRecord, Simple.Create.
  unfold mbind, M_bind. by rewrite Hsame.
Qed.

(** X11. The copy that [getDefaultRelationValues] makes does not depend on
    the order in which [range] visits the fields of the stored map: the
    loop body, run over the fields in any order, gives the heap of the
    model. *)
Theorem copy_is_independent_of_range_order
    relationName defaultValue visited (w : world DB) :
  defaultRelationValues dbMan !! relationName = Some defaultValue →
  visited ≡ₚ map_to_list (deref (w_heap w) defaultValue) →
  let values := new_loc (w_heap w) in
  w_heap (world_of (getDefaultRelationValues dbMan relationName w))
  = foldl (λ h '(k, v), store values k v h)
      (<[values := ∅]> (w_heap w)) visited.
Proof.
  intros Hknown Hperm values.
  rewrite (getDefaultRelationValues_known dbMan _ _ _ Hknown). simpl.
  rewrite foldl_foldr_rev.
  rewrite <- (copy_loop_any_order values _ (w_heap w) (rev visited))
    by by rewrite <- (Permutation_rev visited).
  apply foldr_ext; [|done..]. by intros [k v] h.
Qed.

(** X12. Nor does the filter that [parseSelectValues] builds depend on the
    order in which [range] visits the fields of the value set. *)
Theorem filter_is_independent_of_range_order
    originalValues visited (w : world DB) :
  visited ≡ₚ map_to_list (deref (w_heap w) originalValues) →
  let values := new_loc (w_heap w) in
  w_heap (world_of (parseSelectValues originalValues w))
  = foldl (λ h '(k, v), if is_Sqlizer v then h else store values k v h)
      (<[values := ∅]> (w_heap w)) visited.
Proof.
  intros Hperm values.
  rewrite parseSelectValues_run. simpl.
  rewrite foldl_foldr_rev.
  rewrite <- (filter_loop_any_order values _ (w_heap w) (rev visited))
    by by rewrite <- (Permutation_rev visited).
  apply foldr_ext; [|done..]. intros [k v] h. simpl.
  by destruct (is_Sqlizer v).
Qed.

(** X13. The existence check works with the overridden values: its filter
    compares a field with the value of the last override of that field, and
    leaves the field out when that value is an expression. *)
Theorem check_compares_overridden_value
    tableName stringID defaultValue sets1 f v sets2 (w : world DB) d1 :
  defaultRelationValues dbMan !! tableName = Some defaultValue →
  db_begin (db dbMan) (w_db w) = (None, d1) →
  f ∉ sets2.*1 →
  let sets := sets1 ++ (f, v) :: sets2 in
  let vs := assign_all (deref (w_heap w) defaultValue) sets in
  to_sql (db dbMan) (check_stmt tableName vs) = None →
  ∃ where_eq,
    EvQueryRow (Select [EmptyString] tableName where_eq 1)
    ∈ w_trace (world_of (Transactional.ResolveTestRecord dbMan tableName
                           stringID (overrides sets) w))
    ∧ where_eq !! f = (if is_Sqlizer v then None else Some v).
Proof.
  intros Hknown Hbegin Hf sets vs Hsql.
  exists (filter non_expression vs). split.
  - rewrite (ResolveTestRecord_run dbMan _ _ _ _ _ Hknown).
    rewrite Hbegin. fold sets. fold vs.
    unfold check_outcome, check_events. rewrite Hsql.
    fold (check_stmt tableName vs).
    resolve_cases; unfold after_call; simpl;
      repeat (rewrite elem_of_app || rewrite elem_of_cons);
      unfold check_stmt; naive_solver.
  - assert (Hv : vs !! f = Some v) by by apply assign_all_last_wins.
    destruct (is_Sqlizer v) eqn:Hexpr.
    + apply map_lookup_filter_None. right. intros v' Hv'.
      rewrite Hv in Hv'. injection Hv' as <-. unfold non_expression. simpl.
      by rewrite Hexpr.
    + by apply map_lookup_filter_Some.
Qed.

End order.

(** ** Resolving twice, on the reference database *)

Section twice.
Variable eval : sqlexpr → scalar.

(** The row that an insert writes passes the filter of the check made from
    the same value set. *)
Lemma written_row_passes_check (vs : fields) :
  MemDB.matches (filter non_expression vs) (MemDB.cell eval <$> vs) = true.
Proof.
  unfold MemDB.matches. apply bool_decide_eq_true.
  intros k v Hkv. apply map_lookup_filter_Some in Hkv as [Hk Hv].
  destruct v as [s|e]; [|done]. simpl.
  apply bool_decide_eq_true. by rewrite lookup_fmap, Hk.
Qed.

Lemma filter_bool (P : row → bool) (rows : list row) :
  filter (λ r, P r = true) rows = List.filter P rows.
Proof.
  induction rows as [|r rows IH]; simpl; [done|].
  destruct (P r) eqn:HP.
  - rewrite filter_cons_True by done. by rewrite IH.
  - rewrite filter_cons_False by (by rewrite HP). done.
Qed.

Lemma memdb_resolve_run defaults tableName stringID defaultValue sets
    (w : world memdb) rows :
  let dbMan := {| db := MemDB.driver eval; defaultRelationValues := defaults |} in
  let vs := assign_all (deref (w_heap w) defaultValue) sets in
  let h1 := <[new_loc (w_heap w) := vs]> (w_heap w) in
  let h2 := <[new_loc h1 := filter non_expression vs]> h1 in
  defaults !! tableName = Some defaultValue →
  committed (w_db w) !! tableName = Some rows →
  Transactional.ResolveTestRecord dbMan tableName stringID (overrides sets) w
  = Ok tt (World h2
             (MemDB (<[tableName := rows_after eval vs rows]> (committed (w_db w)))
                    None)
             (w_trace w ++ calls_made tableName vs rows)).
Proof.
  intros dbMan vs h1 h2 Hknown Hrows.
  rewrite (ResolveTestRecord_run dbMan _ _ _ _ _ Hknown). fold vs h1 h2.
  unfold check_outcome, check_events, rows_after, calls_made. simpl.
  unfold MemDB.in_tx. simpl. rewrite Hrows. simpl. rewrite filter_bool.
  destruct (List.filter _ rows) as [|r found] eqn:Hfound; simpl.
  - rewrite commit_run. simpl. unfold after_call, insert_stmt. simpl.
    f_equal. f_equal. trace_eq.
  - rewrite commit_run. simpl. unfold after_call. simpl.
    rewrite (insert_id _ _ _ Hrows). f_equal. f_equal. trace_eq.
Qed.

Lemma rows_after_found (vs : fields) (rows : list row) :
  List.filter (MemDB.matches (filter non_expression vs)) (rows_after eval vs rows)
  ≠ [].
Proof.
  unfold rows_after.
  destruct (List.filter _ rows) as [|r found] eqn:Hfound.
  - rewrite List.filter_app, Hfound. simpl.
    by rewrite written_row_passes_check.
  - by rewrite Hfound.
Qed.

(** X14. On the reference database, resolving the same record twice writes
    it at most once: the first call returns with a row of the relation that
    passes the check, and the second call finds it, makes no insert and
    leaves the tables as the first call left them. *)
Theorem resolve_twice_writes_once
    defaults tableName stringID defaultValue sets (w : world memdb) rows :
  let dbMan := {| db := MemDB.driver eval; defaultRelationValues := defaults |} in
  let resolve :=
    Transactional.ResolveTestRecord dbMan tableName stringID (overrides sets) in
  let vs := assign_all (deref (w_heap w) defaultValue) sets in
  let w1 := world_of (resolve w) in
  let w2 := world_of (resolve w1) in
  defaults !! tableName = Some defaultValue →
  defaults_allocated dbMan (w_heap w) →
  committed (w_db w) !! tableName = Some rows →
  resolve w = Ok tt w1
  ∧ resolve w1 = Ok tt w2
  ∧ (∃ rows1 r, committed (w_db w1) !! tableName = Some rows1
                ∧ r ∈ rows1
                ∧ MemDB.matches (filter non_expression vs) r = true)
  ∧ committed (w_db w2) = committed (w_db w1)
  ∧ w_trace w2
    = w_trace w1 ++ [EvBegin; EvQueryRow (check_stmt tableName vs); EvCommit].
Proof.
  intros dbMan resolve vs w1 w2 Hknown Halloc Hrows.
  pose proof (memdb_resolve_run defaults tableName stringID defaultValue sets
                w rows Hknown Hrows) as Hfirst.
  fold dbMan resolve vs in Hfirst.
  assert (Hw1 : w1 = world_of (resolve w)) by done.
  rewrite Hfirst in Hw1. simpl in Hw1.
  assert (Hvs1 : assign_all (deref (w_heap w1) defaultValue) sets = vs).
  { unfold vs. f_equal. specialize (Halloc _ _ Hknown).
    destruct defaultValue as [|l]; [done|]. simpl in Halloc.
    rewrite Hw1. simpl.
    rewrite !lookup_insert_ne; [done| |].
    - apply not_eq_sym. by apply new_loc_ne.
    - apply not_eq_sym, new_loc_ne. rewrite lookup_insert_ne; [done|].
      apply not_eq_sym. by apply new_loc_ne. }
  assert (Hrows1 : committed (w_db w1) !! tableName
                   = Some (rows_after eval vs rows)).
  { rewrite Hw1. simpl. apply lookup_insert_eq. }
  pose proof (memdb_resolve_run defaults tableName stringID defaultValue sets
                w1 (rows_after eval vs rows) Hknown Hrows1) as Hsecond.
  fold dbMan resolve in Hsecond. rewrite Hvs1 in Hsecond.
  pose proof (rows_after_found vs rows) as Hfound.
  assert (Hw2 : w2 = world_of (resolve w1)) by done.
  rewrite Hsecond in Hw2. simpl in Hw2.
  split; [by rewrite Hfirst, Hw1|]. split; [by rewrite Hsecond, Hw2|].
  split.
  { destruct (List.filter (MemDB.matches (filter non_expression vs))
                (rows_after eval vs rows)) as [|r found] eqn:Hr; [done|].
    exists (rows_after eval vs rows), r. split; [done|].
    assert (Hin : In r (List.filter
                          (MemDB.matches (filter non_expression vs))
                          (rows_after eval vs rows)))
      by (rewrite Hr; by left).
    apply List.filter_In in Hin as [Hin Hmatch].
    split; [by apply list_elem_of_In|done]. }
  rewrite Hw2. simpl. unfold rows_after at 1, calls_made.
  destruct (List.filter (MemDB.matches (filter non_expression vs))
              (rows_after eval vs rows)) as [|r found] eqn:Hr; [done|].
  split; [|done].
  rewrite (insert_id _ _ _ Hrows1). done.
Qed.

End twice.

(** * The further properties at concrete calls *)

Section further_witnesses.
Import Scenario.

(** X2 on empty tables: one begin, one commit. *)
Lemma opened_transaction_is_closed_once_witness :
  ∃ added,
    w_trace (world_of (Transactional.ResolveTestRecord dbMan "users" "u1"
                         (overrides []) world0))
    = w_trace world0 ++ added
    ∧ (calls is_commit added + calls is_rollback added)%nat = 1%nat
    ∧ calls is_begin added = 1%nat.
Proof.
  exact (opened_transaction_is_closed_once dbMan "users" "u1" (mapref users)
           [] world0 _ eq_refl eq_refl).
Defined.

(** X3 on empty tables: the call returns, and its last call is the commit. *)
Lemma normal_return_means_committed_witness :
  ∃ added,
    w_trace (world_of (Transactional.ResolveTestRecord dbMan "users" "u1"
                         (overrides []) world0))
    = w_trace world0 ++ added
    ∧ last added = Some EvCommit
    ∧ calls is_commit added = 1%nat
    ∧ calls is_rollback added = 0%nat.
Proof.
  refine (normal_return_means_committed dbMan "users" "u1" [] world0 _ _).
  vm_compute. reflexivity.
Defined.

(** X5 on a database that refuses to begin. *)
Lemma begin_failure_aborts_without_queries_witness :
  ∃ w',
    Transactional.ResolveTestRecord dbMan_no_begin "users" "u1" (overrides [])
      world0
    = Abort (Fatal "Test setup failed: could not start transaction: driver: bad connection")
        w'
    ∧ w_trace w' = [EvBegin]
    ∧ w_db w' = w_db world0.
Proof.
  exact (begin_failure_aborts_without_queries dbMan_no_begin "users" "u1"
           (mapref users) [] world0 bad_conn _ eq_refl eq_refl).
Defined.

(** X6 on a database that refuses to commit: the row is written in the
    transaction, the commit fails, nothing is rolled back. *)
Lemma commit_failure_aborts_without_rollback_witness :
  ∃ w',
    Transactional.ResolveTestRecord dbMan_no_commit "users" "u1" (overrides [])
      world0
    = Abort (Fatal "Test setup failed: could not commit transaction: driver: bad connection")
        w'
    ∧ w_trace w'
      = [EvBegin; EvQueryRow (Select [EmptyString] "users" user_defaults 1);
         EvTxQuery (Insert "users" user_defaults []); EvCommit]
    ∧ committed (w_db w') = committed (w_db world0).
Proof.
  pose proof (commit_failure_aborts_without_rollback dbMan_no_commit "users"
                "u1" (mapref users) [] world0 _ _ _ eq_refl eq_refl eq_refl)
    as [_ Hinserted].
  destruct (Hinserted bad_conn _ _ eq_refl eq_refl eq_refl eq_refl)
    as (w' & Hrun & Htrace & Hdb).
  exists w'. split; [exact Hrun|]. split; [exact Htrace|].
  rewrite Hdb. reflexivity.
Defined.

(** X7: after a call that overrides the id, the defaults are resolved as
    they were. *)
Lemma resolution_after_a_call_gives_defaults_witness :
  ∃ values w2,
    relationValues dbMan "users" []
      (world_of (Transactional.ResolveTestRecord dbMan "users" "u2"
                   (overrides [("id", u2)]) world0))
    = Ok values w2
    ∧ deref (w_heap w2) values = user_defaults.
Proof.
  refine (proj1 (resolution_after_a_call_gives_defaults dbMan "users" "u2"
                   (overrides [("id", u2)]) "users" (mapref users) world0
                   _ (keeps_overrides _) eq_refl)).
  unfold defaults_allocated. apply (bool_decide_unpack _). vm_compute. exact I.
Defined.

(** X9: the id and the name, overridden in either order. *)
Lemma overrides_of_distinct_fields_commute_witness :
  relationValues dbMan "users" (overrides [("name", bob); ("id", u2)]) world0
  = relationValues dbMan "users" (overrides [("id", u2); ("name", bob)]) world0.
Proof.
  refine (proj1 (overrides_of_distinct_fields_commute dbMan "users" "u2"
                   [("id", u2); ("name", bob)] [("name", bob); ("id", u2)]
                   world0 _ _)).
  - apply (bool_decide_unpack _). vm_compute. exact I.
  - apply perm_swap.
Defined.

(** X10: the id is overridden twice, the second time by the last option. *)
Lemma SetFieldValue_last_wins_witness :
  ∃ values w',
    relationValues dbMan "users"
      (overrides [("id", u2)] ++ [SetFieldValue "id" u3]) world0
    = Ok values w'
    ∧ deref (w_heap w') values !! "id" = Some u3.
Proof.
  eexists _, _. split.
  - vm_compute. reflexivity.
  - refine (SetFieldValue_last_wins dbMan "users" (overrides [("id", u2)])
              "id" u3 world0 _ _ _).
    vm_compute. reflexivity.
Defined.

(** X11: the fields of the defaults of "users", visited name first. *)
Lemma copy_is_independent_of_range_order_witness :
  w_heap (world_of (getDefaultRelationValues dbMan "users" world0))
  = store 3%positive "id" (VScalar (SString "u1"))
      (store 3%positive "name" (VScalar (SString "Alice"))
         (<[3%positive := ∅]> heap0)).
Proof.
  refine (copy_is_independent_of_range_order dbMan "users" (mapref users)
            [("name", VScalar (SString "Alice"));
             ("id", VScalar (SString "u1"))] world0 eq_refl _).
  vm_compute. first [reflexivity | apply perm_swap].
Defined.

(** X12: the fields of the defaults of "events", visited in one order. *)
Lemma filter_is_independent_of_range_order_witness :
  w_heap (world_of (parseSelectValues (mapref events) world0))
  = <[3%positive := ∅]> heap0.
Proof.
  refine (filter_is_independent_of_range_order (mapref events)
            [("updated_at", current_timestamp);
             ("created_at", current_timestamp)] world0 _).
  vm_compute. first [reflexivity | apply perm_swap].
Defined.

(** X13: the check of a call that overrides the id compares the new id. *)
Lemma check_compares_overridden_value_witness :
  ∃ where_eq,
    EvQueryRow (Select [EmptyString] "users" where_eq 1)
    ∈ w_trace (world_of (Transactional.ResolveTestRecord dbMan "users" "u2"
                           (overrides [("id", u2)]) world0))
    ∧ where_eq !! "id" = Some u2.
Proof.
  refine (check_compares_overridden_value dbMan "users" "u2" (mapref users)
            [] "id" u2 [] world0 _ eq_refl eq_refl _ eq_refl).
  apply not_elem_of_nil.
Defined.

(** X14 on empty tables: the second call leaves the one row of the first. *)
Lemma resolve_twice_writes_once_witness :
  let w1 := world_of (Transactional.ResolveTestRecord dbMan "users" "u1"
                        (overrides []) world0) in
  let w2 := world_of (Transactional.ResolveTestRecord dbMan "users" "u1"
                        (overrides []) w1) in
  committed (w_db w2) = committed (w_db w1)
  ∧ committed (w_db w1) !! "users" = Some [alice].
Proof.
  pose proof (resolve_twice_writes_once now defaults "users" "u1"
                (mapref users) [] world0 [] eq_refl) as Htwice.
  destruct Htwice as (_ & _ & _ & Hsame & _).
  - unfold defaults_allocated. apply (bool_decide_unpack _).
    vm_compute. exact I.
  - reflexivity.
  - split; [exact Hsame|]. vm_compute. reflexivity.
Defined.

End further_witnesses.
